(** * Substance: property selections and the merge transformation

    A shallow embedding of [model/PropertySelection.js] and of the merge
    transformation ([merge], [_mergeComponents], [_getNodeMerger],
    [_mergeTextNodes]) together with the properties their specification
    states about them.

    JavaScript values are modelled as far as the code observes them:
    offsets are numbers that may be [undefined] or [NaN], objects that may
    be absent are options, exceptions are explicit results. *)

From Stdlib Require Import ZArith String List Bool Lia.
From stdpp Require Import base option strings list gmap.

Open Scope string_scope.
Open Scope Z_scope.

(** ** JavaScript values used as offsets *)

Module JS.

(** The values an offset can hold: [undefined], [NaN] or an integer
    number (offsets are character positions). *)
Inductive value : Type :=
| undefined
| NaN
| num (z : Z).

(** lodash [isNumber]: true of every number, [NaN] included. *)
Definition isNumber (v : value) : bool :=
  match v with
  | undefined => false
  | NaN | num _ => true
  end.

(** Strict equality [===]: [NaN] equals nothing, itself included. *)
Definition seq (a b : value) : bool :=
  match a, b with
  | undefined, undefined => true
  | num x, num y => x =? y
  | _, _ => false
  end.

(** The relational operators convert both sides to numbers
    ([undefined] becomes [NaN]) and are false as soon as one is [NaN]. *)
Definition lt (a b : value) : bool :=
  match a, b with num x, num y => x <? y | _, _ => false end.
Definition le (a b : value) : bool :=
  match a, b with num x, num y => x <=? y | _, _ => false end.
Definition gt (a b : value) : bool :=
  match a, b with num x, num y => x >? y | _, _ => false end.
Definition ge (a b : value) : bool :=
  match a, b with num x, num y => x >=? y | _, _ => false end.

(** [Math.min] and [Math.max] of two arguments. *)
Definition Math_min (a b : value) : value :=
  match a, b with num x, num y => num (Z.min x y) | _, _ => NaN end.
Definition Math_max (a b : value) : value :=
  match a, b with num x, num y => num (Z.max x y) | _, _ => NaN end.

(** [!!v] for an optional boolean. *)
Definition truthy (b : option bool) : bool :=
  match b with Some true => true | _ => false end.

End JS.

(** ** Paths *)

(** A path is an array of strings; lodash [isEqual] compares two of them
    element by element. *)
Definition Path : Type := list string.

Definition isEqual (p q : Path) : bool := bool_decide (p = q).

(** ** Errors and results *)

(** The errors the code throws, one constructor per message; [TypeError]
    stands for a method call on [undefined]. *)
Inductive Error : Type :=
| InvalidArguments        (* 'Invalid arguments: `path` and `startOffset` are mandatory' *)
| DifferentProperty       (* 'Can not expand PropertySelection to a different property.' *)
| NotAttached             (* 'Selection is not attached to a document.' *)
| InsufficientArguments   (* 'Insufficient arguments! mandatory fields: ...' *)
| TypeError.

(** A reference to a document instance. *)
Definition DocRef : Type := string.

(** ** Property selections *)

Module Selection.

(** The object [new PropertySelection(...)] builds. [doc] is
    [_internal.doc]: [None] until a document is attached. The coordinate
    adapters [_internal.start] and [_internal.end] are views on
    ([path], [startOffset]) and ([path], [endOffset]) and hold no state
    of their own. *)
Record PropertySelection : Type := mkPropertySelection {
  path : Path;
  startOffset : JS.value;
  endOffset : JS.value;
  reverse : bool;
  surfaceId : option string;
  doc : option DocRef
}.

(** Modelled from the spec: the container selection, whose class is not
    among the sources. It "spans from a start path/offset to an end
    path/offset that may differ, anchored to an ordered container"; only
    the four boundary fields are read by the code below. *)
Record ContainerSelection : Type := mkContainerSelection {
  cs_containerId : string;
  cs_startPath : Path;
  cs_startOffset : JS.value;
  cs_endPath : Path;
  cs_endOffset : JS.value;
  cs_reverse : bool;
  cs_surfaceId : option string
}.

(** The closed family of selections: [isNull()] holds of the first
    variant only, [isContainerSelection()] of the last only. *)
Inductive Selection : Type :=
| nullSelection
| PropSel (s : PropertySelection)
| ContSel (c : ContainerSelection).

(** A call handed over to a container selection: [Call m c s] is
    [c.m(s)]. The methods of container selections are not part of these
    sources, so a delegating call is recorded, not evaluated. *)
Inductive ContainerMethod : Type :=
| m_contains | m_isInsideOf | m_overlaps
| m_isRightAlignedWith | m_isLeftAlignedWith | m_expand.

Inductive Delegation : Type :=
| Call (m : ContainerMethod) (c : ContainerSelection) (arg : PropertySelection).

(** How a call ends: with a value, with a thrown error, or as whatever
    the delegated call yields. *)
Inductive completion (A : Type) : Type :=
| Normal (a : A)
| Throw (e : Error)
| Delegated (d : Delegation).

Arguments Normal {A} a.
Arguments Throw {A} e.
Arguments Delegated {A} d.

(** [attach(doc)] *)
Definition attach (this : PropertySelection) (d : DocRef) : PropertySelection :=
  {| path := path this; startOffset := startOffset this;
     endOffset := endOffset this; reverse := reverse this;
     surfaceId := surfaceId this; doc := Some d |}.

(** The constructor. [path] may be missing; [reverse] is coerced with
    [!!]; the guard is on [path] and on [isNumber(startOffset)] only. *)
Definition new_PropertySelection (path : option Path) (startOffset endOffset : JS.value)
    (reverse : option bool) (surfaceId : option string) : completion PropertySelection :=
  match path with
  | None => Throw InvalidArguments
  | Some p =>
      if negb (JS.isNumber startOffset) then Throw InvalidArguments
      else Normal (mkPropertySelection p startOffset endOffset
                     (JS.truthy reverse) surfaceId None)
  end.

(** The object literal [toJSON] returns and [fromJSON] reads. A key that
    is absent reads as [undefined] ([None] for [json_path],
    [json_reverse], [json_surfaceId]); [json_endOffset] also records
    whether the key is there at all, which [hasOwnProperty] observes. *)
Record SelectionJSON : Type := mkSelectionJSON {
  json_type : string;
  json_path : option Path;
  json_startOffset : JS.value;
  json_endOffset : option JS.value;
  json_reverse : option bool;
  json_surfaceId : option string
}.

Definition toJSON (this : PropertySelection) : SelectionJSON :=
  {| json_type := "property";
     json_path := Some (path this);
     json_startOffset := startOffset this;
     json_endOffset := Some (endOffset this);
     json_reverse := Some (reverse this);
     json_surfaceId := surfaceId this |}.

Definition fromJSON (json : SelectionJSON) : completion PropertySelection :=
  let path := json_path json in
  let startOffset := json_startOffset json in
  let endOffset :=
    match json_endOffset json with
    | Some e => e
    | None => json_startOffset json
    end in
  let reverse := json_reverse json in
  let surfaceId := json_surfaceId json in
  new_PropertySelection path startOffset endOffset reverse surfaceId.

Definition getDocument (this : PropertySelection) : completion DocRef :=
  match doc this with
  | None => Throw NotAttached
  | Some d => Normal d
  end.

Definition isCollapsed (this : PropertySelection) : bool :=
  JS.seq (startOffset this) (endOffset this).

Definition isReverse (this : PropertySelection) : bool := reverse this.

(** The read-only accessors [startPath] and [endPath]. *)
Definition startPath (this : PropertySelection) : Path := path this.
Definition endPath (this : PropertySelection) : Path := path this.

(** [createWithNewRange(startOffset, endOffset)] *)
Definition createWithNewRange (this : PropertySelection) (startOffset endOffset : JS.value)
    : completion PropertySelection :=
  match new_PropertySelection (Some (path this)) startOffset endOffset
          (Some false) (surfaceId this) with
  | Normal sel =>
      match doc this with
      | Some d => Normal (attach sel d)
      | None => Normal sel
      end
  | Throw e => Throw e
  | Delegated d => Delegated d
  end.

(** [collapse(direction)] *)
Definition collapse (this : PropertySelection) (direction : string)
    : completion PropertySelection :=
  let offset :=
    if String.eqb direction "left" then startOffset this else endOffset this in
  createWithNewRange this offset offset.

(** An optional flag such as [strict]: omitted, false and true. *)
Definition flag (strict : option bool) : bool := JS.truthy strict.

(** [isInsideOf(other, strict)] *)
Definition isInsideOf (this : PropertySelection) (other : Selection)
    (strict : option bool) : completion bool :=
  match other with
  | nullSelection => Normal false
  | ContSel c => Delegated (Call m_contains c this)
  | PropSel other =>
      if flag strict then
        Normal (isEqual (path this) (path other) &&
                JS.gt (startOffset this) (startOffset other) &&
                JS.lt (endOffset this) (endOffset other))
      else
        Normal (isEqual (path this) (path other) &&
                JS.ge (startOffset this) (startOffset other) &&
                JS.le (endOffset this) (endOffset other))
  end.

(** [contains(other, strict)] *)
Definition contains (this : PropertySelection) (other : Selection)
    (strict : option bool) : completion bool :=
  match other with
  | nullSelection => Normal false
  | ContSel c => Delegated (Call m_isInsideOf c this)
  | PropSel other =>
      if flag strict then
        Normal (isEqual (path this) (path other) &&
                JS.lt (startOffset this) (startOffset other) &&
                JS.gt (endOffset this) (endOffset other))
      else
        Normal (isEqual (path this) (path other) &&
                JS.le (startOffset this) (startOffset other) &&
                JS.ge (endOffset this) (endOffset other))
  end.

(** [overlaps(other, strict)] *)
Definition overlaps (this : PropertySelection) (other : Selection)
    (strict : option bool) : completion bool :=
  match other with
  | nullSelection => Normal false
  | ContSel c => Delegated (Call m_overlaps c this)
  | PropSel other =>
      if negb (isEqual (path this) (path other)) then Normal false
      else if flag strict then
        Normal (negb (JS.ge (startOffset this) (endOffset other) ||
                      JS.le (endOffset this) (startOffset other)))
      else
        Normal (negb (JS.gt (startOffset this) (endOffset other) ||
                      JS.lt (endOffset this) (startOffset other)))
  end.

(** [isRightAlignedWith(other)] *)
Definition isRightAlignedWith (this : PropertySelection) (other : Selection)
    : completion bool :=
  match other with
  | nullSelection => Normal false
  | ContSel c => Delegated (Call m_isRightAlignedWith c this)
  | PropSel other =>
      Normal (isEqual (path this) (path other) &&
              JS.seq (endOffset this) (endOffset other))
  end.

(** [isLeftAlignedWith(other)] *)
Definition isLeftAlignedWith (this : PropertySelection) (other : Selection)
    : completion bool :=
  match other with
  | nullSelection => Normal false
  | ContSel c => Delegated (Call m_isLeftAlignedWith c this)
  | PropSel other =>
      Normal (isEqual (path this) (path other) &&
              JS.seq (startOffset this) (startOffset other))
  end.

(** [expand(other)]: against the null selection the receiver itself is
    returned, against a container selection the call is handed over. *)
Definition expand (this : PropertySelection) (other : Selection)
    : completion Selection :=
  match other with
  | nullSelection => Normal (PropSel this)
  | ContSel c => Delegated (Call m_expand c this)
  | PropSel other =>
      if negb (isEqual (path this) (path other)) then Throw DifferentProperty
      else
        let newStartOffset := JS.Math_min (startOffset this) (startOffset other) in
        let newEndOffset := JS.Math_max (endOffset this) (endOffset other) in
        match createWithNewRange this newStartOffset newEndOffset with
        | Normal sel => Normal (PropSel sel)
        | Throw e => Throw e
        | Delegated d => Delegated d
        end
  end.

(** The four boundary fields [truncate] reads from a non-null [other]:
    [startPath], [startOffset], [endPath], [endOffset]. *)
Definition boundaries (other : Selection) : option (Path * JS.value * Path * JS.value) :=
  match other with
  | nullSelection => None
  | PropSel s => Some (startPath s, startOffset s, endPath s, endOffset s)
  | ContSel c => Some (cs_startPath c, cs_startOffset c, cs_endPath c, cs_endOffset c)
  end.

(** [truncate(other)]: when neither boundary is shared both new offsets
    stay [undefined] and go to the constructor as they are. *)
Definition truncate (this : PropertySelection) (other : Selection)
    : completion PropertySelection :=
  match boundaries other with
  | None => Normal this
  | Some (otherStartPath, otherStartOffset, otherEndPath, otherEndOffset) =>
      if negb (isEqual (startPath this) otherStartPath) ||
         negb (isEqual (endPath this) otherEndPath)
      then Throw DifferentProperty
      else
        let '(newStartOffset, newEndOffset) :=
          if JS.seq (startOffset this) otherStartOffset then
            (otherEndOffset, endOffset this)
          else if JS.seq (endOffset this) otherEndOffset then
            (startOffset this, otherStartOffset)
          else (JS.undefined, JS.undefined) in
        createWithNewRange this newStartOffset newEndOffset
  end.

(** The fragments of a selection: a cursor or one span. *)
Inductive Fragment : Type :=
| Cursor (p : Path) (offset : JS.value)
| Span (p : Path) (startOffset endOffset : JS.value).

Definition getFragments (this : PropertySelection) : list Fragment :=
  if isCollapsed this then [Cursor (path this) (startOffset this)]
  else [Span (path this) (startOffset this) (endOffset this)].

(** The property selections a program can hold: those the constructor
    returned, with or without a document attached afterwards. *)
Inductive constructed : PropertySelection -> Prop :=
| constructed_new p a b r sid s :
    new_PropertySelection p a b r sid = Normal s -> constructed s
| constructed_attach s d :
    constructed s -> constructed (attach s d).

(** What a derived selection keeps of the selection it comes from. *)
Definition derived_from (s r : PropertySelection) : Prop :=
  reverse r = false /\ path r = path s /\
  surfaceId r = surfaceId s /\ doc r = doc s.

End Selection.

(** ** The document, its containers and the merge transformation *)

Module Merge.

Import Selection.

(** Modelled from the spec: a structural node, whose classes are not
    among the sources. It has an [id], a [type] tag, the answer to
    [isInstanceOf('text')], for a text node its text, and the paths of
    its addressable components (one for a text node, several for a
    composite node). *)
Record Node : Type := mkNode {
  id : string;
  type : string;
  isText : bool;
  content : string;
  components : list Path
}.

(** Modelled from the spec: a container, "an ordered sequence of
    structural-unit ids". *)
Record Container : Type := mkContainer {
  container_id : string;
  nodes : list string
}.

(** Modelled from the spec: an annotation, a piece of "text-range
    metadata" anchored on a path. *)
Record Annotation : Type := mkAnnotation {
  anno_id : string;
  anno_path : Path;
  anno_startOffset : Z;
  anno_endOffset : Z
}.

Inductive Entry : Type :=
| NodeEntry (n : Node)
| ContainerEntry (c : Container).

(** The calls that change a document: [tx.update] with an insert,
    [transferAnnotations], [container.hide] and [tx.delete], with their
    arguments. *)
Inductive Call : Type :=
| call_update (p : Path) (offset : Z) (value : string)
| call_transferAnnotations (p : Path) (offset : Z) (newPath : Path) (newOffset : Z)
| call_hide (container : string) (i : option string)
| call_delete (i : string).

(** Modelled from the spec: the state behind the write handle [tx]:
    the records [get] and [delete] work on, and the annotations. The
    [journal] lists the changing calls made so far, oldest first. *)
Record Tx : Type := mkTx {
  store : gmap string Entry;
  annotations : list Annotation;
  journal : list Call
}.

(** What [console.info] receives. *)
Inductive LogEntry : Type :=
| Info (format : string) (arguments : list string).

(** An address is an array of indices; its first component is the
    position of the owning node in the container. *)
Definition Address : Type := list nat.

(** A merge transformation is a function value: the built-in
    [_mergeTextNodes], or one registered by an editing behavior, which
    is named here and run by the interpretation given to [merge]. *)
Inductive MergeTrafo : Type :=
| mergeTextNodes
| custom (name : string).

(** The editing behavior handed in as [args.editingBehavior]: an object
    with these four methods. A getter may answer [undefined]. *)
Record EditingBehavior : Type := mkEditingBehavior {
  canMergeComponents : string -> bool;
  getComponentMerger : string -> option MergeTrafo;
  canMerge : string -> string -> bool;
  getMerger : string -> string -> option MergeTrafo
}.

(** The [args] object, with every key the code reads or sets. *)
Record MergeArgs : Type := mkMergeArgs {
  containerId : option string;
  path : option Path;
  direction : option string;
  editingBehavior : option EditingBehavior;
  selection : option Selection;
  firstAddress : option Address;
  secondAddress : option Address;
  first : option Node;
  second : option Node;
  node : option Node
}.

(** *** A monad for the write handle: state, console output, exceptions *)

Record Result (A : Type) : Type := mkResult {
  final : Tx;
  logged : list LogEntry;
  outcome : completion A
}.

Arguments mkResult {A} final logged outcome.
Arguments final {A} r.
Arguments logged {A} r.
Arguments outcome {A} r.

Definition M (A : Type) : Type := Tx -> Result A.

Definition ret {A : Type} (a : A) : M A :=
  fun tx => mkResult tx [] (Normal a).

Definition throw {A : Type} (e : Error) : M A :=
  fun tx => mkResult tx [] (Throw e).

Definition bind {A B : Type} (m : M A) (k : A -> M B) : M B :=
  fun tx =>
    let r := m tx in
    match outcome r with
    | Normal a =>
        let r' := k a (final r) in
        mkResult (final r') (logged r ++ logged r') (outcome r')
    | Throw e => mkResult (final r) (logged r) (Throw e)
    | Delegated d => mkResult (final r) (logged r) (Delegated d)
    end.

Declare Scope tx_scope.
Delimit Scope tx_scope with tx.
Notation "x <-- m ;; k" := (bind m (fun x => k))
  (at level 100, m at next level, right associativity) : tx_scope.
Notation "m ;;; k" := (bind m (fun _ => k))
  (at level 100, right associativity) : tx_scope.
Open Scope tx_scope.

Definition console_info (format : string) (arguments : list string) : M unit :=
  fun tx => mkResult tx [Info format arguments] (Normal tt).

Definition lift {A : Type} (c : completion A) : M A :=
  fun tx => mkResult tx [] c.

(** *** The write handle *)

(** Modelled from the spec: [tx.get(id)], the record stored under [id]
    or [undefined]. *)
Definition tx_get (i : option string) : M (option Entry) :=
  fun tx =>
    mkResult tx [] (Normal (match i with Some i => store tx !! i | None => None end)).

(** Modelled from the spec: [tx.delete(id)] "removes the record from
    storage"; without an id it is a [TypeError]. *)
Definition tx_delete (i : option string) : M unit :=
  match i with
  | Some i =>
      fun tx =>
        mkResult (mkTx (delete i (store tx)) (annotations tx)
                    (journal tx ++ [call_delete i]))
          [] (Normal tt)
  | None => throw TypeError
  end.

(** The text of a node with [value] spliced in at [offset]. *)
Definition insertText (offset : nat) (value text : string) : string :=
  substring 0 offset text ++ value ++ substring offset (String.length text - offset) text.

(** Modelled from the spec: [tx.update(path, {insert: {offset, value}})],
    a text splice on the text property the path addresses. A path that
    addresses no text property is a [TypeError]. *)
Definition tx_update_insert (p : Path) (offset : Z) (value : string) : M unit :=
  fun tx =>
    match p with
    | [i; "content"] =>
        match store tx !! i with
        | Some (NodeEntry n) =>
            let n' := mkNode (id n) (type n) (isText n)
                        (insertText (Z.to_nat offset) value (content n)) (components n) in
            mkResult (mkTx (<[i := NodeEntry n']> (store tx)) (annotations tx)
                        (journal tx ++ [call_update p offset value]))
              [] (Normal tt)
        | _ => mkResult tx [] (Throw TypeError)
        end
    | _ => mkResult tx [] (Throw TypeError)
    end.

(** Modelled from the spec: the selection [tx.createSelection] builds
    from a descriptor in the serialized selection format, "[endOffset]
    optional, defaults to [startOffset]". Only descriptors of type
    ["property"] are covered; the others belong to classes that are not
    among the sources. *)
Definition tx_createSelection (descriptor : SelectionJSON) : M Selection :=
  if String.eqb (json_type descriptor) "property" then
    match fromJSON descriptor with
    | Normal s => ret (PropSel s)
    | Throw e => throw e
    | Delegated d => lift (Delegated d)
    end
  else throw InvalidArguments.

(** *** Nodes *)

(** Modelled from the spec: [getTextPath()] and [getText()] exist on
    text nodes only; the text lives under the node's id and the field
    name ["content"]. *)
Definition getTextPath (n : option Node) : M Path :=
  match n with
  | Some n => if isText n then ret [id n; "content"] else throw TypeError
  | None => throw TypeError
  end.

Definition getText (n : option Node) : M string :=
  match n with
  | Some n => if isText n then ret (content n) else throw TypeError
  | None => throw TypeError
  end.

(** *** Containers *)

(** [path[0]]: [undefined] on an empty array. *)
Definition first_key (p : Path) : option string := head p.

(** Modelled from the spec: [container.hide(id)] "removes it from
    traversal/addressing immediately"; the record stays in storage.
    [container] is what [tx.get(containerId)] answered; calling [hide]
    on anything else than a container is a [TypeError]. *)
Definition container_hide (container : option Entry) (i : option string) : M unit :=
  match container with
  | Some (ContainerEntry c) =>
      fun tx =>
        let c' := mkContainer (container_id c)
                    (filter (fun j => Some j <> i) (nodes c)) in
        mkResult (mkTx (<[container_id c := ContainerEntry c']> (store tx)) (annotations tx)
                    (journal tx ++ [call_hide (container_id c) i]))
          [] (Normal tt)
  | _ => throw TypeError
  end.

(** Modelled from the spec: [container.getChildAt(index)], the node
    owning the unit at that position, if any. *)
Definition getChildAt (tx : Tx) (c : Container) (index : option nat) : option Node :=
  match index with
  | None => None
  | Some k =>
      match nodes c !! k with
      | Some i => match store tx !! i with Some (NodeEntry n) => Some n | _ => None end
      | None => None
      end
  end.

(** The components of the node at position [k], each with its address. *)
Definition units_of (tx : Tx) (k : nat) (i : string) : list (Address * Path) :=
  match store tx !! i with
  | Some (NodeEntry n) => imap (fun j p => ([k; j], p)) (components n)
  | _ => []
  end.

(** Modelled from the spec: the structural units of a container in
    document order: every component of every child, addressed by the
    child's position and the component's position in the child. *)
Definition units (tx : Tx) (c : Container) : list (Address * Path) :=
  concat (imap (units_of tx) (nodes c)).

Definition address_eqb (a b : Address) : bool := bool_decide (a = b).

Fixpoint position (a : Address) (l : list Address) : option nat :=
  match l with
  | [] => None
  | b :: l' => if address_eqb a b then Some O else S <$> position a l'
  end.

(** Modelled from the spec: [getAddress(path)] "resolves the address of
    the unit owning that path"; no unit, no address. *)
Definition getAddress (tx : Tx) (c : Container) (p : Path) : option Address :=
  fst <$> List.find (fun u => isEqual (snd u) p) (units tx c).

(** Modelled from the spec: [getNextAddress] and [getPreviousAddress]
    "return the neighboring address or an undefined/absent value at a
    boundary". *)
Definition getNextAddress (tx : Tx) (c : Container) (a : option Address) : option Address :=
  match a with
  | None => None
  | Some a =>
      match position a (fst <$> units tx c) with
      | Some k => (fst <$> units tx c) !! S k
      | None => None
      end
  end.

Definition getPreviousAddress (tx : Tx) (c : Container) (a : option Address) : option Address :=
  match a with
  | None => None
  | Some a =>
      match position a (fst <$> units tx c) with
      | Some (S k) => (fst <$> units tx c) !! k
      | _ => None
      end
  end.

(** Modelled from the spec: the annotation-transfer collaborator
    [transferAnnotations(tx, path, offset, newPath, newOffset)]: every
    annotation on [path] that starts at or after [offset] is re-anchored
    on [newPath], shifted by [newOffset - offset]; one that straddles
    [offset] is truncated there. *)
Definition transfer (p : Path) (offset : Z) (newPath : Path) (newOffset : Z)
    (a : Annotation) : Annotation :=
  if negb (isEqual (anno_path a) p) then a
  else if offset <=? anno_startOffset a then
    mkAnnotation (anno_id a) newPath
      (newOffset + anno_startOffset a - offset) (newOffset + anno_endOffset a - offset)
  else if offset <? anno_endOffset a then
    mkAnnotation (anno_id a) (anno_path a) (anno_startOffset a) offset
  else a.

Definition transferAnnotations (p : Path) (offset : Z) (newPath : Path) (newOffset : Z)
    : M unit :=
  fun tx =>
    mkResult (mkTx (store tx) (transfer p offset newPath newOffset <$> annotations tx)
                (journal tx ++ [call_transferAnnotations p offset newPath newOffset]))
      [] (Normal tt).

(** The method calls on what [tx.get(containerId)] answered: a
    [TypeError] when that is not a container. *)
Definition container_getAddress (container : option Entry) (p : Path)
    : M (option Address) :=
  match container with
  | Some (ContainerEntry c) => fun tx => mkResult tx [] (Normal (getAddress tx c p))
  | _ => throw TypeError
  end.

Definition container_getNextAddress (container : option Entry) (a : option Address)
    : M (option Address) :=
  match container with
  | Some (ContainerEntry c) => fun tx => mkResult tx [] (Normal (getNextAddress tx c a))
  | _ => throw TypeError
  end.

Definition container_getPreviousAddress (container : option Entry) (a : option Address)
    : M (option Address) :=
  match container with
  | Some (ContainerEntry c) => fun tx => mkResult tx [] (Normal (getPreviousAddress tx c a))
  | _ => throw TypeError
  end.

(** [container.getChildAt(address[0])] *)
Definition container_getChildAt (container : option Entry) (address : option Address)
    : M (option Node) :=
  match container, address with
  | Some (ContainerEntry c), Some a =>
      fun tx => mkResult tx [] (Normal (getChildAt tx c (head a)))
  | _, _ => throw TypeError
  end.

(** *** Updates of the [args] object *)

(** [args.selection = selection] *)
Definition set_selection (args : MergeArgs) (s : option Selection) : MergeArgs :=
  mkMergeArgs (containerId args) (path args) (direction args) (editingBehavior args)
    s (firstAddress args) (secondAddress args) (first args) (second args) (node args).

(** [extend({}, args, {containerId, firstAddress, secondAddress})] *)
Definition extend_addresses (args : MergeArgs) (containerId : option string)
    (firstAddress secondAddress : option Address) : MergeArgs :=
  mkMergeArgs containerId (path args) (direction args) (editingBehavior args)
    (selection args) firstAddress secondAddress (first args) (second args) (node args).

(** [extend({}, args, {node, firstAddress, secondAddress})] *)
Definition extend_node (args : MergeArgs) (node : option Node)
    (firstAddress secondAddress : option Address) : MergeArgs :=
  mkMergeArgs (containerId args) (path args) (direction args) (editingBehavior args)
    (selection args) firstAddress secondAddress (first args) (second args) node.

(** [extend({}, args, {containerId, first, second})] *)
Definition extend_nodes (args : MergeArgs) (containerId : option string)
    (first second : option Node) : MergeArgs :=
  mkMergeArgs containerId (path args) (direction args) (editingBehavior args)
    (selection args) (firstAddress args) (secondAddress args) first second (node args).

(** The descriptor [{type: 'property', path, startOffset}]: no
    [endOffset] key. *)
Definition property_descriptor (p : Path) (startOffset : Z) : SelectionJSON :=
  mkSelectionJSON "property" (Some p) (JS.num startOffset) None None None.

(** *** The transformation *)

Definition _mergeTextNodes (args : MergeArgs) : M MergeArgs :=
  let containerId := containerId args in
  let first := first args in
  let second := second args in
  container <-- tx_get containerId ;;
  firstPath <-- getTextPath first ;;
  firstText <-- getText first ;;
  let firstLength := Z.of_nat (String.length firstText) in
  secondPath <-- getTextPath second ;;
  secondText <-- getText second ;;
  selection <--
    (if firstLength =? 0 then
       (container_hide container (first_key firstPath) ;;;
        tx_delete (first_key firstPath) ;;;
        tx_createSelection (property_descriptor secondPath 0))
     else
       (tx_update_insert firstPath firstLength secondText ;;;
        transferAnnotations secondPath 0 firstPath firstLength ;;;
        container_hide container (first_key secondPath) ;;;
        tx_delete (first_key secondPath) ;;;
        tx_createSelection (property_descriptor firstPath firstLength))) ;;
  ret (set_selection args (Some selection)).

Definition _getNodeMerger (behavior : option EditingBehavior) (node otherNode : Node)
    : M (option MergeTrafo) :=
  let builtin : M (option MergeTrafo) :=
    if isText node && isText otherNode then ret (Some mergeTextNodes)
    else
      (console_info "No merge behavior defined for %s <- %s" [type node; type otherNode] ;;;
       ret None) in
  match behavior with
  | Some behavior =>
      if canMerge behavior (type node) (type otherNode) then
        ret (getMerger behavior (type node) (type otherNode))
      else if isText node && canMerge behavior "textish" (type otherNode) then
        ret (getMerger behavior "textish" (type otherNode))
      else if isText otherNode && canMerge behavior (type node) "textish" then
        ret (getMerger behavior (type node) "textish")
      else builtin
  | None => builtin
  end.

(** [firstNode === secondNode]: the nodes of a document are the objects
    stored under their ids, so two of them are the same object when the
    ids agree; [undefined] is identical to itself only. *)
Definition same_node (a b : option Node) : bool :=
  match a, b with
  | Some n, Some m => String.eqb (id n) (id m)
  | None, None => true
  | _, _ => false
  end.

(** *** The resolution order in the words of the specification

    The strategy for two distinct nodes is the first of these rules
    that applies: (a) the exact pair of types is registered; (b) the
    first node is textish and ('textish', second type) is registered;
    (c) the second node is textish and (first type, 'textish') is
    registered; (d) both nodes are textish: the built-in text merge;
    (e) otherwise no strategy. Without a behavior nothing is
    registered. *)
Inductive Strategy : Type :=
| registered (firstType secondType : string)
| builtInTextMerge
| noStrategy.

Definition is_registered (behavior : option EditingBehavior) (a b : string) : bool :=
  match behavior with
  | Some behavior => canMerge behavior a b
  | None => false
  end.

Definition resolution_order (behavior : option EditingBehavior) (node otherNode : Node)
    : list (bool * Strategy) :=
  [ (is_registered behavior (type node) (type otherNode),
       registered (type node) (type otherNode));
    (isText node && is_registered behavior "textish" (type otherNode),
       registered "textish" (type otherNode));
    (isText otherNode && is_registered behavior (type node) "textish",
       registered (type node) "textish");
    (isText node && isText otherNode, builtInTextMerge) ].

Fixpoint first_applicable (rules : list (bool * Strategy)) : Strategy :=
  match rules with
  | [] => noStrategy
  | (applies, strategy) :: rules' =>
      if applies then strategy else first_applicable rules'
  end.

(** What resolving to a strategy amounts to for the caller: the merger
    it gets, and what is reported. *)
Definition resolved (behavior : option EditingBehavior) (node otherNode : Node)
    (s : Strategy) : M (option MergeTrafo) :=
  match s with
  | registered a b =>
      ret (match behavior with Some behavior => getMerger behavior a b | None => None end)
  | builtInTextMerge => ret (Some mergeTextNodes)
  | noStrategy =>
      fun tx =>
        mkResult tx
          [Info "No merge behavior defined for %s <- %s" [type node; type otherNode]]
          (Normal None)
  end.

Section Transformation.

(** What the functions registered by editing behaviors do. *)
Variable run_custom : string -> MergeArgs -> M MergeArgs.

(** [mergeTrafo.call(this, tx, args)] *)
Definition call (mergeTrafo : MergeTrafo) (args : MergeArgs) : M MergeArgs :=
  match mergeTrafo with
  | mergeTextNodes => _mergeTextNodes args
  | custom name => run_custom name args
  end.

Definition _mergeComponents (args : MergeArgs) : M MergeArgs :=
  container <-- tx_get (containerId args) ;;
  let firstAddress := firstAddress args in
  let secondAddress := secondAddress args in
  firstNode <-- container_getChildAt container firstAddress ;;
  secondNode <-- container_getChildAt container secondAddress ;;
  let behavior := editingBehavior args in
  if same_node firstNode secondNode then
    match behavior, firstNode with
    | None, _ => ret args
    | Some _, None => throw TypeError
    | Some behavior, Some n =>
        if canMergeComponents behavior (type n) then
          match getComponentMerger behavior (type n) with
          | Some mergeTrafo =>
              call mergeTrafo (extend_node args firstNode firstAddress secondAddress)
          | None => throw TypeError
          end
        else ret args
    end
  else
    match firstNode, secondNode with
    | Some n, Some m =>
        mergeTrafo <-- _getNodeMerger (editingBehavior args) n m ;;
        match mergeTrafo with
        | Some mergeTrafo =>
            call mergeTrafo (extend_nodes args (containerId args) firstNode secondNode)
        | None => ret args
        end
    | _, _ => throw TypeError
    end.

(** A string is falsy when it is missing or empty. *)
Definition present (s : option string) : option string :=
  match s with
  | Some s => if String.eqb s "" then None else Some s
  | None => None
  end.

Definition merge (args : MergeArgs) : M MergeArgs :=
  match present (containerId args), path args, present (direction args) with
  | Some containerId, Some path, Some direction =>
      container <-- tx_get (Some containerId) ;;
      address <-- container_getAddress container path ;;
      if String.eqb direction "right" then
        nextAddress <-- container_getNextAddress container address ;;
        match nextAddress with
        | Some _ =>
            tmp <-- _mergeComponents
                      (extend_addresses args (Some containerId) address nextAddress) ;;
            ret (set_selection args (selection tmp))
        | None => ret args
        end
      else if String.eqb direction "left" then
        previousAdress <-- container_getPreviousAddress container address ;;
        match previousAdress with
        | Some _ =>
            tmp <-- _mergeComponents
                      (extend_addresses args (Some containerId) previousAdress address) ;;
            ret (set_selection args (selection tmp))
        | None => ret args
        end
      else ret args
  | _, _, _ => throw InsufficientArguments
  end.

End Transformation.

End Merge.

(** ** The list package *)

Module ListPackage.

(** A list node as its schema declares it: [ordered], and [items], the
    ids of its list items. *)
Record ListNode : Type := mkListNode {
  id : string;
  ordered : bool;
  items : list string
}.

(** Modelled from the spec: the document a list belongs to, as far as
    lists use it: the list nodes by id. *)
Definition Document : Type := gmap string ListNode.

(** What a call can throw: the error of [removeItem], and a
    [TypeError] for a list that is not in its document. *)
Inductive ListError : Type :=
| NotAChild (id : string)   (* 'List item is not a child of this list: ' + id *)
| MissingList.

(** The document after a call, and what was thrown, if anything. *)
Record Outcome : Type := mkOutcome {
  after : Document;
  thrown : option ListError
}.

(** [getChildrenProperty()] *)
Definition getChildrenProperty : string := "items".

(** [Array.prototype.indexOf]: the first position of [x], or -1. *)
Fixpoint indexOf_from (l : list string) (x : string) (k : Z) : Z :=
  match l with
  | [] => -1
  | y :: l' => if String.eqb y x then k else indexOf_from l' x (k + 1)
  end.

Definition indexOf (l : list string) (x : string) : Z := indexOf_from l x 0.

(** Modelled from the spec: [doc.update(path, {delete: {offset}})] and
    [doc.update(path, {insert: {offset, value}})] on the [items] of a
    list, "array splices". The spec does not cover offsets outside the
    array; the splices here clamp them as [Array.prototype.splice]
    does. *)
Definition splice_delete (offset : Z) (l : list string) : list string :=
  take (Z.to_nat offset) l ++ drop (S (Z.to_nat offset)) l.

Definition splice_insert (offset : Z) (value : string) (l : list string) : list string :=
  take (Z.to_nat offset) l ++ value :: drop (Z.to_nat offset) l.

Definition update_items (this : string) (f : list string -> list string)
    (doc : Document) : Outcome :=
  match doc !! this with
  | Some l =>
      mkOutcome (<[this := mkListNode (id l) (ordered l) (f (items l))]> doc) None
  | None => mkOutcome doc (Some MissingList)
  end.

(** [removeItem(id)]; [this] is the list, named by the key it is stored
    under in its document. *)
Definition removeItem (this : string) (i : string) (doc : Document) : Outcome :=
  match doc !! this with
  | Some l =>
      let offset := indexOf (items l) i in
      if offset >=? 0 then update_items this (splice_delete offset) doc
      else mkOutcome doc (Some (NotAChild i))
  | None => mkOutcome doc (Some MissingList)
  end.

(** [insertItemAt(offset, id)] *)
Definition insertItemAt (this : string) (offset : Z) (i : string) (doc : Document)
    : Outcome :=
  update_items this (splice_insert offset i) doc.

End ListPackage.

(** ** Relations used to compare results *)

Module Compare.

Import Selection.

(** Two results of [expand] agree: the same error, or selections with
    one path and one range, both forward. *)
Definition same_range (x y : completion Selection) : Prop :=
  match x, y with
  | Normal (PropSel r1), Normal (PropSel r2) =>
      path r1 = path r2 /\ startOffset r1 = startOffset r2 /\
      endOffset r1 = endOffset r2 /\ reverse r1 = false /\ reverse r2 = false
  | Throw e1, Throw e2 => e1 = e2
  | _, _ => False
  end.

(** The keys of an [args] object other than [selection], read one by
    one: [same_keys a b] when [a] and [b] agree on all of them. *)
Definition same_keys (a b : Merge.MergeArgs) : Prop :=
  Merge.containerId a = Merge.containerId b /\
  Merge.path a = Merge.path b /\
  Merge.direction a = Merge.direction b /\
  Merge.editingBehavior a = Merge.editingBehavior b /\
  Merge.firstAddress a = Merge.firstAddress b /\
  Merge.secondAddress a = Merge.secondAddress b /\
  Merge.first a = Merge.first b /\
  Merge.second a = Merge.second b /\
  Merge.node a = Merge.node b.

End Compare.

(** * Sample data *)

Module Samples.

Import Selection.

Definition p1 : Path := ["p1"; "content"].
Definition p2 : Path := ["p2"; "content"].

Definition sel (p : Path) (a b : Z) : PropertySelection :=
  mkPropertySelection p (JS.num a) (JS.num b) false None None.

Definition reversed_sel : PropertySelection :=
  mkPropertySelection p1 (JS.num 1) (JS.num 3) true (Some "body") (Some "doc").

(** A body with two paragraphs and one annotation on the second. *)
Definition paragraph (i text : string) : Merge.Node :=
  Merge.mkNode i "paragraph" true text [[i; "content"]].

Definition body : Merge.Container := Merge.mkContainer "body" ["p1"; "p2"].

Definition two_paragraphs (a b : string) : Merge.Tx :=
  Merge.mkTx
    (<["body" := Merge.ContainerEntry body]>
       (<["p1" := Merge.NodeEntry (paragraph "p1" a)]>
          (<["p2" := Merge.NodeEntry (paragraph "p2" b)]> ∅)))
    [Merge.mkAnnotation "strong1" p2 0 1]
    [].

Definition merge_args (p : Path) (direction : string) : Merge.MergeArgs :=
  Merge.mkMergeArgs (Some "body") (Some p) (Some direction) None None
    None None None None None.

Definition text_merge_args (a b : string) : Merge.MergeArgs :=
  Merge.mkMergeArgs (Some "body") (Some p1) (Some "right") None None
    None None (Some (paragraph "p1" a)) (Some (paragraph "p2" b)) None.

(** A figure followed by a table: neither is textish. *)
Definition figure_and_table : Merge.Tx :=
  Merge.mkTx
    (<["body" := Merge.ContainerEntry (Merge.mkContainer "body" ["f1"; "t1"])]>
       (<["f1" := Merge.NodeEntry (Merge.mkNode "f1" "figure" false "" [["f1"; "caption"]])]>
          (<["t1" := Merge.NodeEntry (Merge.mkNode "t1" "table" false "" [["t1"; "cell"]])]> ∅)))
    [] [].

(** Custom mergers that do nothing. *)
Definition no_custom (name : string) (args : Merge.MergeArgs) : Merge.M Merge.MergeArgs :=
  Merge.ret args.

(** A table with two cells, the only node of its container. *)
Definition one_table : Merge.Tx :=
  Merge.mkTx
    (<["body" := Merge.ContainerEntry (Merge.mkContainer "body" ["t2"])]>
       (<["t2" := Merge.NodeEntry
                    (Merge.mkNode "t2" "table" false "" [["t2"; "c1"]; ["t2"; "c2"]])]> ∅))
    [] [].

(** A document with one more record, a note outside the container. *)
Definition with_note (tx : Merge.Tx) : Merge.Tx :=
  Merge.mkTx (<["n1" := Merge.NodeEntry (paragraph "n1" "note")]> (Merge.store tx))
    (Merge.annotations tx) (Merge.journal tx).

(** A behavior with one merger, for two paragraphs, which leaves the
    document alone and sets the null selection. *)
Definition paragraph_behaviour : Merge.EditingBehavior :=
  Merge.mkEditingBehavior
    (fun _ => false) (fun _ => None)
    (fun a b => String.eqb a "paragraph" && String.eqb b "paragraph")
    (fun a b => Some (Merge.custom "keep")).

Definition with_behaviour (args : Merge.MergeArgs) : Merge.MergeArgs :=
  Merge.mkMergeArgs (Merge.containerId args) (Merge.path args) (Merge.direction args)
    (Some paragraph_behaviour) (Merge.selection args) (Merge.firstAddress args)
    (Merge.secondAddress args) (Merge.first args) (Merge.second args) (Merge.node args).

Definition null_selection_merger (name : string) (args : Merge.MergeArgs) : Merge.M Merge.MergeArgs :=
  Merge.ret (Merge.set_selection args (Some Selection.nullSelection)).

(** A list with three items, in its document. *)
Definition shopping : ListPackage.ListNode :=
  ListPackage.mkListNode "l1" false ["i1"; "i2"; "i3"].

Definition list_doc : ListPackage.Document := {["l1" := shopping]}.

End Samples.

(** * Properties *)

(** ** JavaScript comparisons *)

Module JSFacts.

Lemma le_ge_swap a b : JS.le a b = JS.ge b a.
Proof.
  destruct a as [| |x], b as [| |y]; simpl; try reflexivity.
  rewrite Z.geb_leb. reflexivity.
Qed.

Lemma lt_le a b : JS.lt a b = true -> JS.le a b = true.
Proof.
  destruct a as [| |x], b as [| |y]; simpl; try discriminate.
  intros H. apply Z.ltb_lt in H. apply Z.leb_le. lia.
Qed.

Lemma gt_ge a b : JS.gt a b = true -> JS.ge a b = true.
Proof.
  destruct a as [| |x], b as [| |y]; simpl; try discriminate.
  rewrite Z.gtb_ltb, Z.geb_leb. intros H. apply Z.ltb_lt in H.
  apply Z.leb_le. lia.
Qed.

(** On a numeric left operand [>=] is [>] or [===]; on a numeric right
    operand [<=] is [<] or [===]. *)
Lemma ge_gt_seq a b : JS.isNumber a = true -> JS.ge a b = JS.gt a b || JS.seq a b.
Proof.
  destruct a as [| |x], b as [| |y]; simpl; try discriminate; try reflexivity.
  intros _. rewrite Z.geb_leb, Z.gtb_ltb.
  destruct (Z.leb_spec y x), (Z.ltb_spec y x), (Z.eqb_spec x y);
    simpl; try reflexivity; lia.
Qed.

Lemma le_lt_seq a b : JS.isNumber b = true -> JS.le a b = JS.lt a b || JS.seq a b.
Proof.
  destruct a as [| |x], b as [| |y]; simpl; try discriminate; try reflexivity.
  intros _.
  destruct (Z.leb_spec x y), (Z.ltb_spec x y), (Z.eqb_spec x y);
    simpl; try reflexivity; lia.
Qed.

Lemma isNumber_Math_min a b : JS.isNumber (JS.Math_min a b) = true.
Proof. destruct a, b; reflexivity. Qed.

Lemma isEqual_true p q : isEqual p q = true <-> p = q.
Proof. unfold isEqual. rewrite bool_decide_eq_true. reflexivity. Qed.

Lemma isEqual_refl p : isEqual p p = true.
Proof. apply isEqual_true. reflexivity. Qed.

Lemma isEqual_sym p q : isEqual p q = isEqual q p.
Proof.
  unfold isEqual.
  destruct (decide (p = q)) as [->|Hne].
  - reflexivity.
  - rewrite !bool_decide_eq_false_2; [reflexivity | congruence | exact Hne].
Qed.

End JSFacts.

(** ** Property selections *)

Module SelectionFacts.

Import Selection JSFacts Samples.

(** A selection is constructed exactly when its start offset is a
    number: the one thing the constructor insists on. *)
Lemma constructed_isNumber s : constructed s <-> JS.isNumber (startOffset s) = true.
Proof.
  split.
  - induction 1 as [p a b r sid s Hnew | s d _ IH].
    + unfold new_PropertySelection in Hnew.
      destruct p as [p|]; [|discriminate].
      destruct (JS.isNumber a) eqn:Ha; simpl in Hnew; [|discriminate].
      injection Hnew as <-. exact Ha.
    + exact IH.
  - intros Hnum. destruct s as [p a b r sid [d|]].
    + apply (constructed_attach (mkPropertySelection p a b r sid None) d).
      apply (constructed_new (Some p) a b (Some r) sid).
      unfold new_PropertySelection. simpl in Hnum. rewrite Hnum. simpl.
      destruct r; reflexivity.
    + apply (constructed_new (Some p) a b (Some r) sid).
      unfold new_PropertySelection. simpl in Hnum. rewrite Hnum. simpl.
      destruct r; reflexivity.
Qed.

(** [createWithNewRange] succeeds exactly on a numeric start offset, and
    then changes nothing but the range and the direction. *)
Lemma createWithNewRange_number this a b :
  JS.isNumber a = true ->
  createWithNewRange this a b =
    Normal (mkPropertySelection (path this) a b false (surfaceId this) (doc this)).
Proof.
  intros Ha. unfold createWithNewRange, new_PropertySelection.
  rewrite Ha. simpl. destruct (doc this); reflexivity.
Qed.

Lemma createWithNewRange_not_number this a b :
  JS.isNumber a = false -> createWithNewRange this a b = Throw InvalidArguments.
Proof.
  intros Ha. unfold createWithNewRange, new_PropertySelection.
  rewrite Ha. reflexivity.
Qed.

Lemma createWithNewRange_inv this a b r :
  createWithNewRange this a b = Normal r ->
  r = mkPropertySelection (path this) a b false (surfaceId this) (doc this).
Proof.
  destruct (JS.isNumber a) eqn:Ha.
  - rewrite (createWithNewRange_number _ _ _ Ha). congruence.
  - rewrite (createWithNewRange_not_number _ _ _ Ha). discriminate.
Qed.

(** *** truncate *)

(** C3, as stated, fails: when the two selections share neither
    boundary, [truncate] does not return a selection with undefined
    offsets; the constructor rejects the undefined start offset and the
    call throws. Here [1,5] is truncated by [2,3]. *)
Lemma truncate_no_shared_boundary_throws :
  JS.seq (startOffset (sel p1 1 5)) (startOffset (sel p1 2 3)) = false /\
  JS.seq (endOffset (sel p1 1 5)) (endOffset (sel p1 2 3)) = false /\
  truncate (sel p1 1 5) (PropSel (sel p1 2 3)) = Throw InvalidArguments /\
  ~ (exists r, truncate (sel p1 1 5) (PropSel (sel p1 2 3)) = Normal r /\
               startOffset r = JS.undefined /\ endOffset r = JS.undefined).
Proof.
  repeat split; try reflexivity.
  intros [r [Hr _]]. vm_compute in Hr. discriminate.
Qed.

(** C3, amended: for property selections [this] and [other] on the same
    path (offsets being numbers), [truncate] returns a new selection from
    [other.endOffset] to [this.endOffset] when the start offsets are
    equal, else from [this.startOffset] to [other.startOffset] when the
    end offsets are equal, and in every other configuration the new
    offsets stay undefined and the call throws the constructor's
    invalid-arguments error. *)
Theorem truncate_shared_boundary (this other : PropertySelection) :
  path this = path other ->
  constructed this ->
  JS.isNumber (endOffset other) = true ->
  truncate this (PropSel other) =
    if JS.seq (startOffset this) (startOffset other) then
      Normal (mkPropertySelection (path this) (endOffset other) (endOffset this)
                false (surfaceId this) (doc this))
    else if JS.seq (endOffset this) (endOffset other) then
      Normal (mkPropertySelection (path this) (startOffset this) (startOffset other)
                false (surfaceId this) (doc this))
    else Throw InvalidArguments.
Proof.
  intros Hpath Hthis Hend. apply constructed_isNumber in Hthis.
  unfold truncate, boundaries, startPath, endPath.
  rewrite <- Hpath, isEqual_refl. cbn [negb orb].
  destruct (JS.seq (startOffset this) (startOffset other)).
  - apply createWithNewRange_number. exact Hend.
  - destruct (JS.seq (endOffset this) (endOffset other)).
    + apply createWithNewRange_number. exact Hthis.
    + apply createWithNewRange_not_number. reflexivity.
Qed.

Lemma truncate_shared_boundary_witness :
  truncate (sel p1 1 5) (PropSel (sel p1 1 3)) = Normal (sel p1 3 5) /\
  truncate (sel p1 1 5) (PropSel (sel p1 4 5)) = Normal (sel p1 1 4) /\
  truncate (sel p1 1 5) (PropSel (sel p1 2 3)) = Throw InvalidArguments.
Proof.
  assert (H : constructed (sel p1 1 5)).
  { apply constructed_isNumber. reflexivity. }
  split; [|split].
  - exact (truncate_shared_boundary (sel p1 1 5) (sel p1 1 3) eq_refl H eq_refl).
  - exact (truncate_shared_boundary (sel p1 1 5) (sel p1 4 5) eq_refl H eq_refl).
  - exact (truncate_shared_boundary (sel p1 1 5) (sel p1 2 3) eq_refl H eq_refl).
Defined.

(** *** overlaps *)

(** C4, as stated, fails: the test that negates
    [start >= other.end || end <= other.start] is the strict one. Without
    the flag, [0,3] and [3,5], which only touch, do overlap. *)
Lemma overlaps_non_strict_accepts_touch :
  overlaps (sel p1 0 3) (PropSel (sel p1 3 5)) None = Normal true /\
  negb (JS.ge (startOffset (sel p1 0 3)) (endOffset (sel p1 3 5)) ||
        JS.le (endOffset (sel p1 0 3)) (startOffset (sel p1 3 5))) = false /\
  overlaps (sel p1 0 3) (PropSel (sel p1 3 5)) None <>
    Normal (negb (JS.ge (startOffset (sel p1 0 3)) (endOffset (sel p1 3 5)) ||
                  JS.le (endOffset (sel p1 0 3)) (startOffset (sel p1 3 5)))).
Proof.
  split; [reflexivity | split; [reflexivity | vm_compute; discriminate]].
Qed.

(** C4, amended: for property selections [s] and [t] on the same path,
    [s.overlaps(t)] without the flag is the negation of
    [s.start > t.end || s.end < t.start], and [s.overlaps(t, true)] is
    the negation of [s.start >= t.end || s.end <= t.start]: the strict
    test is the non-strict one with the two boundary touches
    ([s.start === t.end], [s.end === t.start]) excluded. *)
Theorem overlaps_strictness (s t : PropertySelection) :
  path s = path t ->
  constructed s -> constructed t ->
  overlaps s (PropSel t) None =
    Normal (negb (JS.gt (startOffset s) (endOffset t) ||
                  JS.lt (endOffset s) (startOffset t))) /\
  overlaps s (PropSel t) (Some true) =
    Normal (negb (JS.ge (startOffset s) (endOffset t) ||
                  JS.le (endOffset s) (startOffset t))) /\
  overlaps s (PropSel t) (Some true) =
    Normal (negb (JS.gt (startOffset s) (endOffset t) ||
                  JS.lt (endOffset s) (startOffset t)) &&
            negb (JS.seq (startOffset s) (endOffset t)) &&
            negb (JS.seq (endOffset s) (startOffset t))).
Proof.
  intros Hpath Hs Ht.
  apply constructed_isNumber in Hs. apply constructed_isNumber in Ht.
  unfold overlaps. rewrite Hpath, isEqual_refl. cbn [negb flag JS.truthy].
  repeat split. f_equal.
  rewrite (ge_gt_seq _ _ Hs), (le_lt_seq _ _ Ht).
  destruct (JS.gt _ _), (JS.lt _ _), (JS.seq (startOffset s) _), (JS.seq (endOffset s) _);
    reflexivity.
Qed.

Lemma overlaps_strictness_witness :
  overlaps (sel p1 0 3) (PropSel (sel p1 3 5)) None = Normal true /\
  overlaps (sel p1 0 3) (PropSel (sel p1 3 5)) (Some true) = Normal false.
Proof.
  assert (Hs : constructed (sel p1 0 3)).
  { apply constructed_isNumber. reflexivity. }
  assert (Ht : constructed (sel p1 3 5)).
  { apply constructed_isNumber. reflexivity. }
  destruct (overlaps_strictness (sel p1 0 3) (sel p1 3 5) eq_refl Hs Ht)
    as (H1 & H2 & _).
  split; [exact H1 | exact H2].
Defined.

(** *** expand *)

(** C5: on the same path [s.expand(t)] is a new selection on that path
    from [min(s.startOffset, t.startOffset)] to
    [max(s.endOffset, t.endOffset)]; on different paths it throws
    'Can not expand PropertySelection to a different property.' *)
Theorem expand_min_max (s t : PropertySelection) :
  (path s = path t ->
   expand s (PropSel t) =
     Normal (PropSel (mkPropertySelection (path s)
                        (JS.Math_min (startOffset s) (startOffset t))
                        (JS.Math_max (endOffset s) (endOffset t))
                        false (surfaceId s) (doc s))) /\
   forall a b c d,
     startOffset s = JS.num a -> endOffset s = JS.num b ->
     startOffset t = JS.num c -> endOffset t = JS.num d ->
     expand s (PropSel t) =
       Normal (PropSel (mkPropertySelection (path s)
                          (JS.num (Z.min a c)) (JS.num (Z.max b d))
                          false (surfaceId s) (doc s)))) /\
  (path s <> path t -> expand s (PropSel t) = Throw DifferentProperty).
Proof.
  split.
  - intros Hpath.
    assert (Hgen : expand s (PropSel t) =
      Normal (PropSel (mkPropertySelection (path s)
                         (JS.Math_min (startOffset s) (startOffset t))
                         (JS.Math_max (endOffset s) (endOffset t))
                         false (surfaceId s) (doc s)))).
    { unfold expand. rewrite Hpath, isEqual_refl. simpl.
      rewrite createWithNewRange_number by apply isNumber_Math_min.
      rewrite Hpath. reflexivity. }
    split; [exact Hgen|].
    intros a b c d Ha Hb Hc Hd. rewrite Hgen, Ha, Hb, Hc, Hd. reflexivity.
  - intros Hpath. unfold expand.
    destruct (isEqual (path s) (path t)) eqn:E; [|reflexivity].
    apply isEqual_true in E. contradiction.
Qed.

Lemma expand_min_max_witness :
  expand (sel p1 2 4) (PropSel (sel p1 1 3)) = Normal (PropSel (sel p1 1 4)) /\
  expand (sel p1 2 4) (PropSel (sel p2 1 3)) = Throw DifferentProperty.
Proof.
  split.
  - destruct (expand_min_max (sel p1 2 4) (sel p1 1 3)) as [Hsame _].
    destruct (Hsame eq_refl) as [_ Hint].
    exact (Hint 2 4 1 3 eq_refl eq_refl eq_refl eq_refl).
  - destruct (expand_min_max (sel p1 2 4) (sel p2 1 3)) as [_ Hdiff].
    apply Hdiff. discriminate.
Defined.

(** *** contains and isInsideOf *)

(** C6: on the same path, [s.contains(t)] and [t.isInsideOf(s)] without
    the strict flag return the same value, and each strict variant
    implies its non-strict one. *)
Theorem contains_isInsideOf (s t : PropertySelection) :
  path s = path t ->
  contains s (PropSel t) None = isInsideOf t (PropSel s) None /\
  (contains s (PropSel t) (Some true) = Normal true ->
   contains s (PropSel t) (Some false) = Normal true /\
   contains s (PropSel t) None = Normal true) /\
  (isInsideOf s (PropSel t) (Some true) = Normal true ->
   isInsideOf s (PropSel t) (Some false) = Normal true /\
   isInsideOf s (PropSel t) None = Normal true).
Proof.
  intros Hpath. unfold contains, isInsideOf. simpl.
  rewrite Hpath, isEqual_refl. simpl. split; [|split].
  - rewrite (le_ge_swap (startOffset s)), <- (le_ge_swap (endOffset t)).
    reflexivity.
  - intros H. injection H as H. apply andb_true_iff in H as [H1 H2].
    rewrite (lt_le _ _ H1), (gt_ge _ _ H2). split; reflexivity.
  - intros H. injection H as H. apply andb_true_iff in H as [H1 H2].
    rewrite (gt_ge _ _ H1), (lt_le _ _ H2). split; reflexivity.
Qed.

Lemma contains_isInsideOf_witness :
  contains (sel p1 1 5) (PropSel (sel p1 2 3)) None =
    isInsideOf (sel p1 2 3) (PropSel (sel p1 1 5)) None /\
  contains (sel p1 1 5) (PropSel (sel p1 2 3)) (Some false) = Normal true /\
  isInsideOf (sel p1 2 3) (PropSel (sel p1 1 5)) (Some false) = Normal true.
Proof.
  destruct (contains_isInsideOf (sel p1 1 5) (sel p1 2 3) eq_refl) as (H & Hc & _).
  destruct (contains_isInsideOf (sel p1 2 3) (sel p1 1 5) eq_refl) as (_ & _ & Hi).
  split; [exact H | split].
  - exact (proj1 (Hc eq_refl)).
  - exact (proj1 (Hi eq_refl)).
Defined.

(** *** toJSON and fromJSON *)

(** C7: for every property selection [s], [fromJSON(toJSON(s))] is a
    selection with the path, start offset, end offset, reverse flag and
    surfaceId of [s]; and a JSON input without the [endOffset] key gives
    a selection whose end offset is its start offset, a collapsed one. *)
Theorem fromJSON_toJSON (s : PropertySelection) :
  constructed s ->
  (exists s',
     fromJSON (toJSON s) = Normal s' /\
     path s' = path s /\ startOffset s' = startOffset s /\
     endOffset s' = endOffset s /\ reverse s' = reverse s /\
     surfaceId s' = surfaceId s) /\
  (forall json p a,
     json_path json = Some p -> json_startOffset json = JS.num a ->
     json_endOffset json = None ->
     exists s',
       fromJSON json = Normal s' /\ path s' = p /\
       startOffset s' = JS.num a /\ endOffset s' = JS.num a /\
       isCollapsed s' = true).
Proof.
  intros Hs. apply constructed_isNumber in Hs. split.
  - exists (mkPropertySelection (path s) (startOffset s) (endOffset s)
              (reverse s) (surfaceId s) None).
    unfold fromJSON, toJSON, new_PropertySelection. simpl. rewrite Hs. simpl.
    destruct (reverse s); repeat split; reflexivity.
  - intros json p a Hp Ha He.
    exists (mkPropertySelection p (JS.num a) (JS.num a)
              (JS.truthy (json_reverse json)) (json_surfaceId json) None).
    unfold fromJSON, new_PropertySelection, isCollapsed.
    rewrite Hp, Ha, He. simpl. rewrite Z.eqb_refl. repeat split; reflexivity.
Qed.

Lemma fromJSON_toJSON_witness :
  constructed reversed_sel /\
  exists s',
    fromJSON (toJSON reversed_sel) = Normal s' /\
    path s' = p1 /\ startOffset s' = JS.num 1 /\ endOffset s' = JS.num 3 /\
    reverse s' = true /\ surfaceId s' = Some "body".
Proof.
  assert (H : constructed reversed_sel).
  { apply constructed_isNumber. reflexivity. }
  split; [exact H|].
  exact (proj1 (fromJSON_toJSON reversed_sel H)).
Defined.

(** *** createWithNewRange and the selections derived with it *)

(** C10, as stated, fails: [expand] against the null selection returns
    the receiver itself, so the result of [expand] on a reversed
    selection can be reversed; [truncate] does the same. *)
Lemma expand_null_keeps_reverse :
  expand reversed_sel nullSelection = Normal (PropSel reversed_sel) /\
  truncate reversed_sel nullSelection = Normal reversed_sel /\
  reverse reversed_sel = true /\
  ~ (forall other r,
       expand reversed_sel other = Normal (PropSel r) -> reverse r = false).
Proof.
  repeat split.
  intros H. specialize (H nullSelection reversed_sel eq_refl). discriminate.
Qed.

(** C10, amended: every property selection derived through
    [createWithNewRange], hence every result of [collapse], every result
    of [expand] against a property selection and every result of
    [truncate] against a selection that is not null, has its reverse
    flag false, and the path, surfaceId and attached document of the
    original; against the null selection [expand] and [truncate] return
    the original selection itself. *)
Theorem createWithNewRange_frame (s : PropertySelection) :
  (forall a b r, createWithNewRange s a b = Normal r -> derived_from s r) /\
  (forall direction r, collapse s direction = Normal r -> derived_from s r) /\
  (forall t r, expand s (PropSel t) = Normal r ->
     exists r', r = PropSel r' /\ derived_from s r') /\
  (forall other r, other <> nullSelection ->
     truncate s other = Normal r -> derived_from s r) /\
  expand s nullSelection = Normal (PropSel s) /\
  truncate s nullSelection = Normal s.
Proof.
  assert (Hcreate : forall a b r,
            createWithNewRange s a b = Normal r -> derived_from s r).
  { intros a b r H. apply createWithNewRange_inv in H. subst r.
    repeat split. }
  split; [exact Hcreate | split; [|split; [|split; [|split; reflexivity]]]].
  - intros direction r. unfold collapse. apply Hcreate.
  - intros t r. unfold expand.
    destruct (negb (isEqual (path s) (path t))); [discriminate|].
    destruct (createWithNewRange s _ _) as [r'| |] eqn:E; try discriminate.
    intros H. injection H as <-. exists r'. split; [reflexivity|].
    exact (Hcreate _ _ _ E).
  - intros other r Hother. unfold truncate.
    destruct (boundaries other) as [[[[sp so] ep] eo]|] eqn:Hb.
    + destruct (negb (isEqual (startPath s) sp) || negb (isEqual (endPath s) ep));
        [discriminate|].
      destruct (if JS.seq (startOffset s) so then _ else _) as [x y].
      apply Hcreate.
    + destruct other; try discriminate. contradiction.
Qed.

Lemma createWithNewRange_frame_witness :
  truncate reversed_sel (PropSel (sel p1 1 2)) =
    Normal (mkPropertySelection p1 (JS.num 2) (JS.num 3) false (Some "body") (Some "doc")) /\
  derived_from reversed_sel
    (mkPropertySelection p1 (JS.num 2) (JS.num 3) false (Some "body") (Some "doc")).
Proof.
  split; [reflexivity|].
  destruct (createWithNewRange_frame reversed_sel) as (_ & _ & _ & H & _).
  apply (H (PropSel (sel p1 1 2))); [discriminate | reflexivity].
Defined.

End SelectionFacts.

(** ** The merge transformation *)

Module MergeFacts.

Import Selection Merge JSFacts Samples.

(** *** Mandatory arguments *)

(** C9: [merge] throws its insufficient-arguments error whenever
    [containerId], [path] or [direction] is missing, whatever the
    document holds, and leaves the document as it was: nothing is read
    or written before the check. *)
Theorem merge_mandatory_fields
    (run_custom : string -> MergeArgs -> M MergeArgs) (args : MergeArgs) (tx : Tx) :
  containerId args = None \/ path args = None \/ direction args = None ->
  merge run_custom args tx = mkResult tx [] (Throw InsufficientArguments).
Proof.
  intros H. unfold merge.
  destruct (present (containerId args)) as [containerId|] eqn:Hc; [|reflexivity].
  destruct (path args) as [p|] eqn:Hp; [|reflexivity].
  destruct (present (direction args)) as [direction|] eqn:Hd; [|reflexivity].
  destruct H as [H | [H | H]].
  - rewrite H in Hc. discriminate.
  - discriminate.
  - rewrite H in Hd. discriminate.
Qed.

Lemma merge_mandatory_fields_witness :
  merge no_custom
    (mkMergeArgs (Some "body") (Some p1) None None None None None None None None)
    (two_paragraphs "foo" "bar")
  = mkResult (two_paragraphs "foo" "bar") [] (Throw InsufficientArguments).
Proof.
  apply merge_mandatory_fields. right. right. reflexivity.
Defined.

(** *** No neighbour *)

Lemma getPreviousAddress_first tx c a :
  position a (fst <$> units tx c) = Some O ->
  getPreviousAddress tx c (Some a) = None.
Proof. intros H. unfold getPreviousAddress. rewrite H. reflexivity. Qed.

(** C8: when the unit at the given position has no neighbour in the
    requested direction, [merge] returns the [args] it was given, with
    no selection set, and the document is unchanged. *)
Theorem merge_without_neighbour
    (run_custom : string -> MergeArgs -> M MergeArgs) (args : MergeArgs) (tx : Tx)
    (cid direction : string) (p : Path) (c : Container) :
  present (containerId args) = Some cid ->
  path args = Some p ->
  present (Merge.direction args) = Some direction ->
  store tx !! cid = Some (ContainerEntry c) ->
  (direction = "left" /\ getPreviousAddress tx c (getAddress tx c p) = None) \/
  (direction = "right" /\ getNextAddress tx c (getAddress tx c p) = None) ->
  merge run_custom args tx = mkResult tx [] (Normal args).
Proof.
  intros Hc Hp Hd Hstore Hnone. unfold merge. rewrite Hc, Hp, Hd.
  unfold bind, tx_get, container_getAddress, container_getNextAddress,
    container_getPreviousAddress. simpl. rewrite Hstore. simpl.
  destruct Hnone as [[-> Hnone] | [-> Hnone]]; simpl; rewrite Hnone; reflexivity.
Qed.

Lemma merge_without_neighbour_witness :
  getAddress (two_paragraphs "foo" "bar") body p1 = Some [0%nat; 0%nat] /\
  merge no_custom (merge_args p1 "left") (two_paragraphs "foo" "bar")
  = mkResult (two_paragraphs "foo" "bar") [] (Normal (merge_args p1 "left")).
Proof.
  split; [reflexivity|].
  apply (merge_without_neighbour no_custom (merge_args p1 "left")
           (two_paragraphs "foo" "bar") "body" "left" p1 body);
    try reflexivity.
  left. split; reflexivity.
Defined.

(** *** Resolution of the node merger *)

(** C2: for two distinct nodes the merger is resolved in the order of
    the specification: the registered exact pair, then ('textish',
    second type) for a textish first node, then (first type, 'textish')
    for a textish second node, then the built-in text merge when both
    are textish, and else none, which is logged; [_mergeComponents]
    then returns its [args] and leaves the document alone, without
    throwing. *)
Theorem getNodeMerger_priority
    (run_custom : string -> MergeArgs -> M MergeArgs)
    (behavior : option EditingBehavior) (node otherNode : Node) :
  _getNodeMerger behavior node otherNode =
    resolved behavior node otherNode
      (first_applicable (resolution_order behavior node otherNode)) /\
  (forall args tx cid c firstAddress secondAddress,
     editingBehavior args = behavior ->
     containerId args = Some cid ->
     store tx !! cid = Some (ContainerEntry c) ->
     Merge.firstAddress args = Some firstAddress ->
     Merge.secondAddress args = Some secondAddress ->
     getChildAt tx c (head firstAddress) = Some node ->
     getChildAt tx c (head secondAddress) = Some otherNode ->
     id node <> id otherNode ->
     first_applicable (resolution_order behavior node otherNode) = noStrategy ->
     _mergeComponents run_custom args tx =
       mkResult tx
         [Info "No merge behavior defined for %s <- %s" [type node; type otherNode]]
         (Normal args)).
Proof.
  assert (Hres : _getNodeMerger behavior node otherNode =
    resolved behavior node otherNode
      (first_applicable (resolution_order behavior node otherNode))).
  { unfold _getNodeMerger, resolution_order, first_applicable, is_registered.
    destruct behavior as [b|].
    - destruct (canMerge b (type node) (type otherNode)); [reflexivity|].
      destruct (isText node); simpl.
      + destruct (canMerge b "textish" (type otherNode)); [reflexivity|].
        destruct (isText otherNode); simpl; [|reflexivity].
        destruct (canMerge b (type node) "textish"); reflexivity.
      + destruct (isText otherNode); simpl; [|reflexivity].
        destruct (canMerge b (type node) "textish"); reflexivity.
    - simpl. rewrite !andb_false_r.
      destruct (isText node), (isText otherNode); reflexivity. }
  split; [exact Hres|].
  intros args tx cid c fa sa Hb Hcid Hstore Hfa Hsa Hn Hm Hne Hnone.
  unfold _mergeComponents. rewrite Hb, Hcid, Hfa, Hsa.
  unfold bind at 1 2 3, tx_get, container_getChildAt.
  cbn -[_getNodeMerger bind]. rewrite Hstore. cbn -[_getNodeMerger bind].
  rewrite Hn, Hm. cbn -[_getNodeMerger bind].
  destruct (String.eqb_spec (id node) (id otherNode)) as [E|_]; [contradiction|].
  rewrite Hres, Hnone. reflexivity.
Qed.

Lemma getNodeMerger_priority_witness :
  merge no_custom (merge_args ["f1"; "caption"] "right") figure_and_table =
    mkResult figure_and_table
      [Info "No merge behavior defined for %s <- %s" ["figure"; "table"]]
      (Normal (merge_args ["f1"; "caption"] "right")) /\
  _mergeComponents no_custom
    (extend_addresses (merge_args ["f1"; "caption"] "right") (Some "body")
       (Some [0%nat; 0%nat]) (Some [1%nat; 0%nat]))
    figure_and_table =
    mkResult figure_and_table
      [Info "No merge behavior defined for %s <- %s" ["figure"; "table"]]
      (Normal (extend_addresses (merge_args ["f1"; "caption"] "right") (Some "body")
                 (Some [0%nat; 0%nat]) (Some [1%nat; 0%nat]))).
Proof.
  split; [reflexivity|].
  destruct (getNodeMerger_priority no_custom None
              (mkNode "f1" "figure" false "" [["f1"; "caption"]])
              (mkNode "t1" "table" false "" [["t1"; "cell"]])) as [_ H].
  apply (H _ figure_and_table "body" (mkContainer "body" ["f1"; "t1"])
           [0%nat; 0%nat] [1%nat; 0%nat]); try reflexivity.
  discriminate.
Defined.

(** *** The built-in text merge *)

Lemma substring_whole (s : string) : substring 0 (String.length s) s = s.
Proof. induction s as [|ch s IH]; simpl; [reflexivity | rewrite IH; reflexivity]. Qed.

Lemma substring_past_end (s : string) : substring (String.length s) 0 s = "".
Proof. induction s as [|ch s IH]; simpl; [reflexivity | exact IH]. Qed.

Lemma append_empty_r (s : string) : (s ++ "")%string = s.
Proof.
  induction s as [|ch s IH]; [reflexivity|].
  change (String ch (s ++ "")%string = String ch s). rewrite IH. reflexivity.
Qed.

(** Inserting at the length of a text appends. *)
Lemma insertText_at_end (value text : string) :
  insertText (String.length text) value text = (text ++ value)%string.
Proof.
  unfold insertText.
  rewrite substring_whole, Nat.sub_diag, substring_past_end, append_empty_r.
  reflexivity.
Qed.

Lemma hide_removes (i : string) (l : list string) :
  i ∉ filter (fun j => Some j <> Some i) l.
Proof.
  intros Hin. apply list_elem_of_filter in Hin as [Hne _]. apply Hne. reflexivity.
Qed.

(** A step that logs nothing and returns normally. *)
Lemma bind_silent {A B : Type} (m : M A) (k : A -> M B) tx tx1 a r :
  m tx = mkResult tx1 [] (Normal a) ->
  k a tx1 = r ->
  bind m k tx = r.
Proof. intros H1 H2. unfold bind. rewrite H1. cbn. rewrite H2. destruct r; reflexivity. Qed.

Ltac step tac := eapply bind_silent; [tac; reflexivity | cbv beta].

(** The two runs of [_mergeTextNodes], step by step. *)
Section TextMerge.

Variables (args : MergeArgs) (tx : Tx) (cid : string) (c : Container) (f s : Node).
Hypothesis Hcid : containerId args = Some cid.
Hypothesis Hf : first args = Some f.
Hypothesis Hs : second args = Some s.
Hypothesis Hc : store tx !! cid = Some (ContainerEntry c).
Hypothesis Hcname : container_id c = cid.
Hypothesis Htf : isText f = true.
Hypothesis Hts : isText s = true.

Lemma mergeTextNodes_empty :
  Z.of_nat (String.length (content f)) = 0 ->
  _mergeTextNodes args tx =
    mkResult
      (mkTx (delete (id f)
               (<[cid := ContainerEntry
                           (mkContainer cid
                              (filter (fun j => Some j <> Some (id f)) (nodes c)))]>
                  (store tx)))
         (annotations tx)
         (journal tx ++ [call_hide cid (Some (id f)); call_delete (id f)]))
      []
      (Normal (set_selection args
                 (Some (PropSel (mkPropertySelection [id s; "content"]
                                   (JS.num 0) (JS.num 0) false None None))))).
Proof.
  intros Hlen. unfold _mergeTextNodes. rewrite Hcid, Hf, Hs.
  step ltac:(unfold tx_get; rewrite Hc).
  step ltac:(unfold getTextPath; rewrite Htf).
  step ltac:(unfold getText; rewrite Htf).
  step ltac:(unfold getTextPath; rewrite Hts).
  step ltac:(unfold getText; rewrite Hts).
  rewrite Hlen. change (0 =? 0) with true. cbv iota.
  eapply bind_silent.
  - step ltac:(unfold container_hide; rewrite Hcname).
    step idtac.
    reflexivity.
  - unfold ret. cbn [journal store annotations]. rewrite <- !app_assoc. reflexivity.
Qed.

Lemma mergeTextNodes_append :
  store tx !! id f = Some (NodeEntry f) ->
  Z.of_nat (String.length (content f)) <> 0 ->
  _mergeTextNodes args tx =
    mkResult
      (mkTx (delete (id s)
               (<[cid := ContainerEntry
                           (mkContainer cid
                              (filter (fun j => Some j <> Some (id s)) (nodes c)))]>
                  (<[id f := NodeEntry
                               (mkNode (id f) (type f) (isText f)
                                  (content f ++ content s)%string (components f))]>
                     (store tx))))
         (transfer [id s; "content"] 0 [id f; "content"]
            (Z.of_nat (String.length (content f))) <$> annotations tx)
         (journal tx ++
            [call_update [id f; "content"] (Z.of_nat (String.length (content f)))
               (content s);
             call_transferAnnotations [id s; "content"] 0 [id f; "content"]
               (Z.of_nat (String.length (content f)));
             call_hide cid (Some (id s));
             call_delete (id s)]))
      []
      (Normal (set_selection args
                 (Some (PropSel (mkPropertySelection [id f; "content"]
                                   (JS.num (Z.of_nat (String.length (content f))))
                                   (JS.num (Z.of_nat (String.length (content f))))
                                   false None None))))).
Proof.
  intros Hsf Hlen. unfold _mergeTextNodes. rewrite Hcid, Hf, Hs.
  step ltac:(unfold tx_get; rewrite Hc).
  step ltac:(unfold getTextPath; rewrite Htf).
  step ltac:(unfold getText; rewrite Htf).
  step ltac:(unfold getTextPath; rewrite Hts).
  step ltac:(unfold getText; rewrite Hts).
  destruct (Z.eqb_spec (Z.of_nat (String.length (content f))) 0) as [E|_];
    [contradiction|].
  eapply bind_silent.
  - step ltac:(unfold tx_update_insert; rewrite Hsf, Nat2Z.id, insertText_at_end).
    step idtac.
    step ltac:(unfold container_hide; rewrite Hcname).
    step idtac.
    reflexivity.
  - unfold ret. cbn [journal store annotations]. rewrite <- !app_assoc. reflexivity.
Qed.

End TextMerge.

(** C1: the built-in text merge of two text nodes [f] and [s] of a
    document. When the text of [f] is empty, [f] is hidden from the
    container, then deleted, [s] stays as it is, and the selection
    returned is collapsed at offset 0 of the text of [s]. Otherwise the
    text of [s] is inserted at the end of the text of [f], the
    annotations on the text of [s] move to the text of [f], shifted by
    the original length of [f], [s] is hidden, then deleted, and the
    selection returned is collapsed on the text of [f] at that length. *)
Theorem mergeTextNodes_effect (args : MergeArgs) (tx : Tx) (cid : string)
    (c : Container) (f s : Node) :
  containerId args = Some cid ->
  first args = Some f -> second args = Some s ->
  store tx !! cid = Some (ContainerEntry c) -> container_id c = cid ->
  store tx !! id f = Some (NodeEntry f) ->
  store tx !! id s = Some (NodeEntry s) ->
  isText f = true -> isText s = true -> id f <> id s ->
  let firstLength := Z.of_nat (String.length (content f)) in
  let firstPath := [id f; "content"] in
  let secondPath := [id s; "content"] in
  let hidden i := mkContainer cid (filter (fun j => Some j <> Some i) (nodes c)) in
  let r := _mergeTextNodes args tx in
  (firstLength = 0 ->
   journal (final r) =
     (journal tx ++ [call_hide cid (Some (id f)); call_delete (id f)])%list /\
   final r =
     mkTx (delete (id f) (<[cid := ContainerEntry (hidden (id f))]> (store tx)))
       (annotations tx) (journal (final r)) /\
   store (final r) !! cid = Some (ContainerEntry (hidden (id f))) /\
   (id f ∉ nodes (hidden (id f))) /\
   store (final r) !! id f = None /\
   store (final r) !! id s = Some (NodeEntry s) /\
   outcome r =
     Normal (set_selection args
               (Some (PropSel (mkPropertySelection secondPath (JS.num 0) (JS.num 0)
                                 false None None)))) /\
   isCollapsed (mkPropertySelection secondPath (JS.num 0) (JS.num 0)
                  false None None) = true /\
   (exists a,
      outcome r = Normal a /\
      selection a =
        Some (PropSel (mkPropertySelection secondPath (JS.num 0) (JS.num 0)
                         false None None)))) /\
  (firstLength <> 0 ->
   let merged := mkNode (id f) (type f) (isText f)
                   (content f ++ content s)%string (components f) in
   journal (final r) =
     (journal tx ++
        [call_update firstPath firstLength (content s);
         call_transferAnnotations secondPath 0 firstPath firstLength;
         call_hide cid (Some (id s));
         call_delete (id s)])%list /\
   final r =
     mkTx (delete (id s)
             (<[cid := ContainerEntry (hidden (id s))]>
                (<[id f := NodeEntry merged]> (store tx))))
       (transfer secondPath 0 firstPath firstLength <$> annotations tx)
       (journal (final r)) /\
   store (final r) !! id f = Some (NodeEntry merged) /\
   (forall a, a ∈ annotations tx -> anno_path a = secondPath ->
      0 <= anno_startOffset a ->
      mkAnnotation (anno_id a) firstPath
        (firstLength + anno_startOffset a) (firstLength + anno_endOffset a)
      ∈ annotations (final r)) /\
   store (final r) !! cid = Some (ContainerEntry (hidden (id s))) /\
   (id s ∉ nodes (hidden (id s))) /\
   store (final r) !! id s = None /\
   outcome r =
     Normal (set_selection args
               (Some (PropSel (mkPropertySelection firstPath (JS.num firstLength)
                                 (JS.num firstLength) false None None)))) /\
   isCollapsed (mkPropertySelection firstPath (JS.num firstLength)
                  (JS.num firstLength) false None None) = true /\
   (exists a,
      outcome r = Normal a /\
      selection a =
        Some (PropSel (mkPropertySelection firstPath (JS.num firstLength)
                         (JS.num firstLength) false None None)))).
Proof.
  intros Hcid Hf Hs Hc Hcname Hsf Hss Htf Hts Hne firstLength firstPath secondPath
    hidden r.
  assert (Hcf : cid <> id f) by (intros ->; rewrite Hc in Hsf; discriminate).
  assert (Hcs : cid <> id s) by (intros ->; rewrite Hc in Hss; discriminate).
  subst r. split.
  - intros Hlen.
    rewrite (mergeTextNodes_empty args tx cid c f s Hcid Hf Hs Hc Hcname Htf Hts Hlen).
    cbn [final outcome store annotations journal]. fold (hidden (id f)). repeat split.
    + rewrite lookup_delete_ne, lookup_insert_eq by congruence. reflexivity.
    + apply hide_removes.
    + apply lookup_delete_eq.
    + rewrite lookup_delete_ne, lookup_insert_ne by congruence. exact Hss.
    + eexists. split; reflexivity.
  - intros Hlen merged.
    rewrite (mergeTextNodes_append args tx cid c f s Hcid Hf Hs Hc Hcname Htf Hts
               Hsf Hlen).
    cbn [final outcome store annotations journal]. fold (hidden (id s)).
    unfold isCollapsed. cbn [startOffset endOffset JS.seq]. rewrite Z.eqb_refl.
    repeat split.
    + rewrite lookup_delete_ne, lookup_insert_ne, lookup_insert_eq by congruence.
      reflexivity.
    + intros a Ha Hpath Hstart.
      apply list_elem_of_fmap. exists a. split; [|exact Ha].
      unfold transfer. rewrite Hpath, isEqual_refl. cbn [negb].
      destruct (Z.leb_spec 0 (anno_startOffset a)); [|lia].
      rewrite !Z.sub_0_r. reflexivity.
    + rewrite lookup_delete_ne, lookup_insert_eq by congruence. reflexivity.
    + apply hide_removes.
    + apply lookup_delete_eq.
    + eexists. split; reflexivity.
Qed.

Lemma mergeTextNodes_effect_witness :
  (let r := _mergeTextNodes (text_merge_args "" "bar") (two_paragraphs "" "bar") in
   store (final r) !! "body" = Some (ContainerEntry (mkContainer "body" ["p2"])) /\
   store (final r) !! "p1" = None /\
   store (final r) !! "p2" = Some (NodeEntry (paragraph "p2" "bar")) /\
   (exists a, outcome r = Normal a /\ selection a = Some (PropSel (sel p2 0 0)))) /\
  (let r := _mergeTextNodes (text_merge_args "foo" "bar") (two_paragraphs "foo" "bar") in
   store (final r) !! "body" = Some (ContainerEntry (mkContainer "body" ["p1"])) /\
   store (final r) !! "p1" = Some (NodeEntry (paragraph "p1" "foobar")) /\
   store (final r) !! "p2" = None /\
   mkAnnotation "strong1" p1 3 4 ∈ annotations (final r) /\
   (exists a, outcome r = Normal a /\ selection a = Some (PropSel (sel p1 3 3)))).
Proof.
  split.
  - destruct (mergeTextNodes_effect (text_merge_args "" "bar") (two_paragraphs "" "bar")
                "body" body (paragraph "p1" "") (paragraph "p2" "bar")
                eq_refl eq_refl eq_refl eq_refl eq_refl eq_refl eq_refl eq_refl eq_refl
                ltac:(discriminate)) as [Hempty _].
    destruct (Hempty eq_refl) as (_ & _ & Hbody & _ & Hp1 & Hp2 & _ & _ & Hsel).
    repeat split; assumption.
  - destruct (mergeTextNodes_effect (text_merge_args "foo" "bar")
                (two_paragraphs "foo" "bar")
                "body" body (paragraph "p1" "foo") (paragraph "p2" "bar")
                eq_refl eq_refl eq_refl eq_refl eq_refl eq_refl eq_refl eq_refl eq_refl
                ltac:(discriminate)) as [_ Hfull].
    destruct (Hfull ltac:(discriminate)) as (_ & _ & Hp1 & Hanno & Hbody & _ & Hp2 & _ & _ & Hsel).
    repeat split; try assumption.
    apply (Hanno (mkAnnotation "strong1" p2 0 1)).
    + apply list_elem_of_here.
    + reflexivity.
    + simpl. lia.
Defined.

End MergeFacts.

(** ** Further properties of property selections *)

Module SelectionAlgebra.

Import Selection Compare JSFacts Samples SelectionFacts.

Lemma gt_lt_swap a b : JS.gt a b = JS.lt b a.
Proof.
  destruct a as [| |x], b as [| |y]; simpl; try reflexivity.
  apply Z.gtb_ltb.
Qed.

Lemma new_PropertySelection_inv p a b r sid s :
  new_PropertySelection p a b r sid = Normal s ->
  p = Some (path s) /\ JS.isNumber a = true /\
  s = mkPropertySelection (path s) a b (JS.truthy r) sid None.
Proof.
  unfold new_PropertySelection. destruct p as [p|]; [|discriminate].
  destruct (JS.isNumber a); simpl; [|discriminate].
  intros H. injection H as <-. repeat split.
Qed.

(** X1: [overlaps] between two property selections is symmetric, with
    and without the strict flag, whatever the paths and offsets. *)
Theorem overlaps_symmetric (s t : PropertySelection) (strict : option bool) :
  overlaps s (PropSel t) strict = overlaps t (PropSel s) strict.
Proof.
  unfold overlaps. rewrite (isEqual_sym (path t) (path s)).
  destruct (isEqual (path s) (path t)); [|reflexivity]. cbn [negb].
  destruct (flag strict); f_equal; f_equal.
  - rewrite <- (le_ge_swap (endOffset t)), (le_ge_swap (endOffset s)).
    apply orb_comm.
  - rewrite (gt_lt_swap (startOffset s)), (gt_lt_swap (startOffset t)).
    apply orb_comm.
Qed.

(** X2: for a constructed [this] and an [other] whose end offset is a
    number, [truncate] returns a selection exactly when [this] is left-
    or right-aligned with [other]; otherwise it throws. *)
Theorem truncate_iff_aligned (this other : PropertySelection) :
  constructed this ->
  JS.isNumber (endOffset other) = true ->
  ((exists r, truncate this (PropSel other) = Normal r) <->
   (isLeftAlignedWith this (PropSel other) = Normal true \/
    isRightAlignedWith this (PropSel other) = Normal true)) /\
  ((exists r, truncate this (PropSel other) = Normal r) \/
   (exists e, truncate this (PropSel other) = Throw e)).
Proof.
  intros Hthis Hend. apply constructed_isNumber in Hthis.
  unfold truncate, boundaries, startPath, endPath, isLeftAlignedWith,
    isRightAlignedWith.
  destruct (isEqual (path this) (path other)); cbn [negb orb andb].
  - destruct (JS.seq (startOffset this) (startOffset other)).
    + rewrite (createWithNewRange_number _ _ _ Hend).
      split; [split; eauto | eauto].
    + destruct (JS.seq (endOffset this) (endOffset other)).
      * rewrite (createWithNewRange_number _ _ _ Hthis).
        split; [split; eauto | eauto].
      * rewrite createWithNewRange_not_number by reflexivity.
        split; [|eauto]. split.
        -- intros [r Hr]. discriminate.
        -- intros [H|H]; discriminate.
  - split; [|eauto]. split.
    + intros [r Hr]. discriminate.
    + intros [H|H]; discriminate.
Qed.

Lemma truncate_iff_aligned_witness :
  (exists r, truncate (sel p1 1 5) (PropSel (sel p1 4 5)) = Normal r) /\
  isRightAlignedWith (sel p1 1 5) (PropSel (sel p1 4 5)) = Normal true.
Proof.
  assert (H : constructed (sel p1 1 5)).
  { apply constructed_isNumber. reflexivity. }
  destruct (truncate_iff_aligned (sel p1 1 5) (sel p1 4 5) H eq_refl) as [Hiff _].
  split; [|reflexivity]. apply Hiff. right. reflexivity.
Defined.

(** X3: on integer offsets and one path, the selection [expand] returns
    contains both the receiver and the argument. *)
Theorem expand_contains_both (s t : PropertySelection) (a b c d : Z) :
  path s = path t ->
  startOffset s = JS.num a -> endOffset s = JS.num b ->
  startOffset t = JS.num c -> endOffset t = JS.num d ->
  exists r,
    expand s (PropSel t) = Normal (PropSel r) /\
    contains r (PropSel s) None = Normal true /\
    contains r (PropSel t) None = Normal true.
Proof.
  intros Hpath Ha Hb Hc Hd.
  exists (mkPropertySelection (path s) (JS.num (Z.min a c)) (JS.num (Z.max b d))
            false (surfaceId s) (doc s)).
  unfold expand. rewrite <- Hpath, isEqual_refl, Ha, Hb, Hc, Hd. cbn [negb].
  rewrite createWithNewRange_number by reflexivity.
  unfold contains. cbn [path startOffset endOffset flag JS.truthy JS.Math_min JS.Math_max].
  rewrite <- Hpath, !isEqual_refl, Ha, Hb, Hc, Hd.
  cbn [JS.le JS.ge andb]. rewrite !Z.geb_leb.
  repeat split; f_equal; apply andb_true_iff; split; apply Z.leb_le; lia.
Qed.

Lemma expand_contains_both_witness :
  exists r,
    expand (sel p1 2 4) (PropSel (sel p1 1 3)) = Normal (PropSel r) /\
    contains r (PropSel (sel p1 2 4)) None = Normal true /\
    contains r (PropSel (sel p1 1 3)) None = Normal true.
Proof.
  exact (expand_contains_both (sel p1 2 4) (sel p1 1 3) 2 4 1 3
           eq_refl eq_refl eq_refl eq_refl eq_refl).
Defined.

Lemma Math_min_comm a b : JS.Math_min a b = JS.Math_min b a.
Proof. destruct a, b; simpl; try reflexivity. rewrite Z.min_comm. reflexivity. Qed.

Lemma Math_max_comm a b : JS.Math_max a b = JS.Math_max b a.
Proof. destruct a, b; simpl; try reflexivity. rewrite Z.max_comm. reflexivity. Qed.

(** X4: [s.expand(t)] and [t.expand(s)] agree for all property
    selections: both throw the different-property error, or both return
    a forward selection with one path and one range. *)
Theorem expand_commutes (s t : PropertySelection) :
  same_range (expand s (PropSel t)) (expand t (PropSel s)).
Proof.
  unfold expand. rewrite (isEqual_sym (path t) (path s)).
  destruct (isEqual (path s) (path t)) eqn:E; cbn [negb]; [|reflexivity].
  apply isEqual_true in E.
  rewrite !createWithNewRange_number by apply isNumber_Math_min.
  cbn. repeat split.
  - exact E.
  - apply Math_min_comm.
  - apply Math_max_comm.
Qed.

(** X5: truncating [s] by a selection [t] that lies inside [s], shares
    one boundary with it and is ordered, and then expanding the result
    by [t] again, gives back the path and the range of [s]. *)
Theorem truncate_then_expand (s t : PropertySelection) (a b c d : Z) :
  path s = path t ->
  startOffset s = JS.num a -> endOffset s = JS.num b ->
  startOffset t = JS.num c -> endOffset t = JS.num d ->
  a = c \/ b = d ->
  a <= c -> c <= d -> d <= b ->
  exists r r',
    truncate s (PropSel t) = Normal r /\
    expand r (PropSel t) = Normal (PropSel r') /\
    path r' = path s /\ startOffset r' = startOffset s /\
    endOffset r' = endOffset s.
Proof.
  intros Hpath Ha Hb Hc Hd Hshare Hac Hcd Hdb.
  unfold truncate, boundaries, startPath, endPath.
  rewrite <- Hpath, isEqual_refl, Ha, Hb, Hc, Hd. cbn [negb orb JS.seq].
  destruct (Z.eqb_spec a c) as [Eac|Nac].
  - rewrite createWithNewRange_number by reflexivity.
    eexists. eexists. split; [reflexivity|].
    unfold expand. cbn [path startOffset endOffset]. rewrite <- Hpath, isEqual_refl.
    cbn [negb]. rewrite Hc, Hd. rewrite createWithNewRange_number by reflexivity.
    cbn [path startOffset endOffset JS.Math_min JS.Math_max].
    split; [reflexivity|]. split; [reflexivity|].
    split; cbn [startOffset endOffset]; f_equal; lia.
  - destruct Hshare as [?|Ebd]; [contradiction|].
    destruct (Z.eqb_spec b d) as [_|Nbd]; [|contradiction].
    rewrite createWithNewRange_number by reflexivity.
    eexists. eexists. split; [reflexivity|].
    unfold expand. cbn [path startOffset endOffset]. rewrite <- Hpath, isEqual_refl.
    cbn [negb]. rewrite Hc, Hd. rewrite createWithNewRange_number by reflexivity.
    cbn [path startOffset endOffset JS.Math_min JS.Math_max].
    split; [reflexivity|]. split; [reflexivity|].
    split; cbn [startOffset endOffset]; f_equal; lia.
Qed.

Lemma truncate_then_expand_witness :
  exists r r',
    truncate (sel p1 1 5) (PropSel (sel p1 1 3)) = Normal r /\
    expand r (PropSel (sel p1 1 3)) = Normal (PropSel r') /\
    path r' = p1 /\ startOffset r' = JS.num 1 /\ endOffset r' = JS.num 5.
Proof.
  apply (truncate_then_expand (sel p1 1 5) (sel p1 1 3) 1 5 1 3);
    try reflexivity; lia.
Defined.

(** X6: on integer offsets [collapse] returns a collapsed selection, at
    the start offset for ['left'] and at the end offset for any other
    direction; collapsing it again, in any direction, changes nothing,
    and its only fragment is a cursor. *)
Theorem collapse_collapsed (s : PropertySelection) (a b : Z) (direction : string) :
  startOffset s = JS.num a -> endOffset s = JS.num b ->
  exists r,
    collapse s direction = Normal r /\
    startOffset r = (if String.eqb direction "left" then JS.num a else JS.num b) /\
    isCollapsed r = true /\
    (forall again, collapse r again = Normal r) /\
    getFragments r = [Cursor (path s) (startOffset r)].
Proof.
  intros Ha Hb. unfold collapse. rewrite Ha, Hb.
  set (o := if String.eqb direction "left" then a else b).
  assert (Ho : (if String.eqb direction "left" then JS.num a else JS.num b) = JS.num o).
  { unfold o. destruct (String.eqb direction "left"); reflexivity. }
  rewrite Ho. rewrite createWithNewRange_number by reflexivity.
  eexists. split; [reflexivity|].
  cbn [startOffset]. split; [reflexivity|].
  unfold getFragments, isCollapsed. cbn [startOffset endOffset path JS.seq].
  rewrite Z.eqb_refl. split; [reflexivity|]. split; [|reflexivity].
  intros again. cbn [surfaceId doc].
  destruct (String.eqb again "left");
    rewrite createWithNewRange_number by reflexivity; reflexivity.
Qed.

Lemma collapse_collapsed_witness :
  exists r,
    collapse reversed_sel "right" = Normal r /\
    startOffset r = JS.num 3 /\ isCollapsed r = true /\
    (forall again, collapse r again = Normal r) /\
    getFragments r = [Cursor p1 (startOffset r)].
Proof.
  exact (collapse_collapsed reversed_sel 1 3 "right" eq_refl eq_refl).
Defined.

(** X7: a selection fresh from the constructor has no document and
    [getDocument] throws; after [attach(doc)] it answers [doc], the
    other fields are untouched, and every selection derived with
    [createWithNewRange] answers [doc] as well. *)
Theorem getDocument_attach (s : PropertySelection) (d : DocRef) :
  (forall p a b r sid, new_PropertySelection p a b r sid = Normal s ->
     getDocument s = Throw NotAttached) /\
  getDocument (attach s d) = Normal d /\
  toJSON (attach s d) = toJSON s /\
  (forall a b r, createWithNewRange (attach s d) a b = Normal r ->
     getDocument r = Normal d).
Proof.
  split; [|split; [|split]].
  - intros p a b r sid H. apply new_PropertySelection_inv in H as (_ & _ & ->).
    reflexivity.
  - reflexivity.
  - reflexivity.
  - intros a b r H. apply createWithNewRange_inv in H. subst r. reflexivity.
Qed.

Lemma getDocument_attach_witness :
  getDocument (sel p1 1 3) = Throw NotAttached /\
  getDocument (attach (sel p1 1 3) "doc") = Normal "doc".
Proof.
  destruct (getDocument_attach (sel p1 1 3) "doc") as (H1 & H2 & _).
  split; [|exact H2].
  apply (H1 (Some p1) (JS.num 1) (JS.num 3) None None). reflexivity.
Defined.

(** X8: [fromJSON] throws the invalid-arguments error exactly when the
    JSON has no path or its start offset is not a number; in every other
    case it returns an unattached selection. It hands nothing over to a
    container selection. *)
Theorem fromJSON_guard (json : SelectionJSON) :
  (fromJSON json = Throw InvalidArguments <->
   json_path json = None \/ JS.isNumber (json_startOffset json) = false) /\
  (forall p, json_path json = Some p ->
     JS.isNumber (json_startOffset json) = true ->
     exists s, fromJSON json = Normal s /\ path s = p /\ doc s = None /\
               startOffset s = json_startOffset json) /\
  (forall d, fromJSON json <> Delegated d).
Proof.
  unfold fromJSON, new_PropertySelection.
  destruct (json_path json) as [p|].
  - destruct (JS.isNumber (json_startOffset json)); cbn [negb].
    + split; [split|split].
      * discriminate.
      * intros [H|H]; discriminate.
      * intros p' Hp _. injection Hp as <-. eexists. repeat split.
      * discriminate.
    + split; [split|split].
      * intros _. right. reflexivity.
      * reflexivity.
      * intros p' _ H. discriminate.
      * discriminate.
  - split; [split|split].
    + intros _. left. reflexivity.
    + reflexivity.
    + intros p' H. discriminate.
    + discriminate.
Qed.

Lemma fromJSON_guard_witness :
  fromJSON (mkSelectionJSON "property" None (JS.num 0) None None None)
    = Throw InvalidArguments /\
  fromJSON (mkSelectionJSON "property" (Some p1) JS.undefined None None None)
    = Throw InvalidArguments /\
  exists s,
    fromJSON (mkSelectionJSON "property" (Some p1) (JS.num 2) None None None)
      = Normal s /\ path s = p1 /\ doc s = None /\ startOffset s = JS.num 2.
Proof.
  split; [|split].
  - apply (proj1 (fromJSON_guard _)). left. reflexivity.
  - apply (proj1 (fromJSON_guard _)). right. reflexivity.
  - apply (proj1 (proj2 (fromJSON_guard
             (mkSelectionJSON "property" (Some p1) (JS.num 2) None None None))));
      reflexivity.
Defined.

(** X9: whatever [fromJSON] returns is a fixed point of the round trip:
    [fromJSON(toJSON(s))] is [s] itself; and [toJSON(fromJSON(json))] is
    [json] again when [json] has the type 'property', an [endOffset] key
    and a boolean [reverse]. *)
Theorem toJSON_fromJSON (json : SelectionJSON) (s : PropertySelection) :
  fromJSON json = Normal s ->
  fromJSON (toJSON s) = Normal s /\
  (json_type json = "property" ->
   json_endOffset json <> None -> json_reverse json <> None ->
   toJSON s = json).
Proof.
  intros H. unfold fromJSON in H.
  apply new_PropertySelection_inv in H as (Hp & Hnum & Hs).
  split.
  - rewrite Hs. unfold fromJSON, toJSON, new_PropertySelection.
    cbn [json_path json_startOffset json_endOffset json_reverse json_surfaceId
         path startOffset endOffset reverse surfaceId].
    rewrite Hnum. cbn [negb].
    destruct (JS.truthy (json_reverse json)); reflexivity.
  - intros Htype Hend Hrev. rewrite Hs. unfold toJSON.
    cbn [path startOffset endOffset reverse surfaceId].
    destruct json as [ty pa st en re su]. cbn in *.
    subst ty. rewrite Hp.
    destruct en as [e|]; [|contradiction].
    destruct re as [r|]; [|contradiction].
    destruct r; reflexivity.
Qed.

Lemma toJSON_fromJSON_witness :
  fromJSON (toJSON (sel p1 1 3)) = Normal (sel p1 1 3) /\
  toJSON (sel p1 1 3) =
    mkSelectionJSON "property" (Some p1) (JS.num 1) (Some (JS.num 3)) (Some false) None.
Proof.
  destruct (toJSON_fromJSON
              (mkSelectionJSON "property" (Some p1) (JS.num 1) (Some (JS.num 3))
                 (Some false) None)
              (sel p1 1 3) eq_refl) as [H1 H2].
  split; [exact H1|]. apply H2; [reflexivity | discriminate | discriminate].
Defined.

(** X10: a selection that contains an ordered selection also overlaps
    it, with the strict flag and without; for [t = [5,2]], which is not
    ordered, [[3,4]] contains [t] and does not overlap it. *)
Theorem contains_overlaps (s t : PropertySelection) (c d : Z) (strict : option bool) :
  startOffset t = JS.num c -> endOffset t = JS.num d -> c <= d ->
  contains s (PropSel t) strict = Normal true ->
  overlaps s (PropSel t) strict = Normal true.
Proof.
  intros Hc Hd Hcd. unfold contains, overlaps. rewrite Hc, Hd.
  destruct (isEqual (path s) (path t)); cbn [negb andb];
    [|destruct (flag strict); discriminate].
  destruct (startOffset s) as [| |a], (endOffset s) as [| |b];
    destruct (flag strict); cbn [JS.lt JS.gt JS.le JS.ge andb orb negb];
    rewrite ?andb_false_r; try discriminate.
  - intros H. injection H as H. apply andb_true_iff in H as [H1 H2].
    apply Z.ltb_lt in H1. rewrite Z.gtb_ltb in H2. apply Z.ltb_lt in H2.
    f_equal. rewrite Z.geb_leb.
    destruct (Z.leb_spec d a), (Z.leb_spec b c); cbn; try reflexivity; lia.
  - intros H. injection H as H. apply andb_true_iff in H as [H1 H2].
    apply Z.leb_le in H1. rewrite Z.geb_leb in H2. apply Z.leb_le in H2.
    f_equal. rewrite Z.gtb_ltb.
    destruct (Z.ltb_spec d a), (Z.ltb_spec b c); cbn; try reflexivity; lia.
Qed.

Lemma contains_overlaps_witness :
  overlaps (sel p1 1 5) (PropSel (sel p1 2 3)) (Some true) = Normal true /\
  contains (sel p1 3 4) (PropSel (sel p1 5 2)) None = Normal true /\
  overlaps (sel p1 3 4) (PropSel (sel p1 5 2)) None = Normal false.
Proof.
  split; [|split; reflexivity].
  apply (contains_overlaps (sel p1 1 5) (sel p1 2 3) 2 3 (Some true));
    [reflexivity | reflexivity | lia | reflexivity].
Defined.

(** X11: non-strict [contains] orders ranges: it holds of a selection
    with integer offsets and itself, it is transitive (the strict test
    as well), and two selections that contain each other have one path
    and equal offsets. *)
Theorem contains_order (s t u : PropertySelection) :
  (forall a b, startOffset s = JS.num a -> endOffset s = JS.num b ->
     contains s (PropSel s) None = Normal true) /\
  (forall strict,
     contains s (PropSel t) strict = Normal true ->
     contains t (PropSel u) strict = Normal true ->
     contains s (PropSel u) strict = Normal true) /\
  (contains s (PropSel t) None = Normal true ->
   contains t (PropSel s) None = Normal true ->
   path s = path t /\
   JS.seq (startOffset s) (startOffset t) = true /\
   JS.seq (endOffset s) (endOffset t) = true).
Proof.
  split; [|split].
  - intros a b Ha Hb. unfold contains. rewrite isEqual_refl, Ha, Hb.
    cbn. rewrite Z.leb_refl, Z.geb_leb, Z.leb_refl. reflexivity.
  - intros strict. unfold contains.
    destruct (isEqual (path s) (path t)) eqn:Est;
      [|destruct (flag strict); discriminate].
    destruct (isEqual (path t) (path u)) eqn:Etu;
      [|destruct (flag strict); discriminate].
    apply isEqual_true in Est. apply isEqual_true in Etu.
    rewrite Est, Etu, isEqual_refl. cbn [andb].
    destruct (startOffset s) as [| |a], (endOffset s) as [| |b],
      (startOffset t) as [| |c], (endOffset t) as [| |d],
      (startOffset u) as [| |e], (endOffset u) as [| |f];
      destruct (flag strict); cbn [JS.lt JS.gt JS.le JS.ge andb];
      rewrite ?andb_false_r; try discriminate;
      rewrite ?Z.gtb_ltb, ?Z.geb_leb;
      intros H1 H2; injection H1 as H1; injection H2 as H2;
      apply andb_true_iff in H1 as [H1 H1']; apply andb_true_iff in H2 as [H2 H2'];
      f_equal; apply andb_true_iff;
      rewrite ?Z.ltb_lt, ?Z.leb_le in *; lia.
  - unfold contains. cbn [flag JS.truthy].
    destruct (isEqual (path s) (path t)) eqn:Est; [|discriminate].
    apply isEqual_true in Est. rewrite <- Est, isEqual_refl. cbn [andb].
    destruct (startOffset s) as [| |a], (endOffset s) as [| |b],
      (startOffset t) as [| |c], (endOffset t) as [| |d];
      cbn [JS.le JS.ge JS.seq andb]; rewrite ?andb_false_r; try discriminate.
    rewrite !Z.geb_leb. intros H1 H2. injection H1 as H1. injection H2 as H2.
    apply andb_true_iff in H1 as [H1 H1']. apply andb_true_iff in H2 as [H2 H2'].
    rewrite Z.leb_le in *.
    repeat split; try reflexivity; apply Z.eqb_eq; lia.
Qed.

Lemma contains_order_witness :
  contains (sel p1 0 9) (PropSel (sel p1 2 3)) None = Normal true.
Proof.
  destruct (contains_order (sel p1 0 9) (sel p1 1 5) (sel p1 2 3)) as (_ & H & _).
  apply (H None); reflexivity.
Defined.

Lemma seq_sym a b : JS.seq a b = JS.seq b a.
Proof. destruct a, b; simpl; try reflexivity. apply Z.eqb_sym. Qed.

Lemma seq_not_lt a b : JS.seq a b = true -> JS.lt a b = false /\ JS.gt a b = false.
Proof.
  destruct a as [| |x], b as [| |y]; simpl; try discriminate; try (split; reflexivity).
  intros H. apply Z.eqb_eq in H. subst y.
  rewrite Z.ltb_irrefl, Z.gtb_ltb, Z.ltb_irrefl. split; reflexivity.
Qed.

(** X25: the two alignment tests are symmetric, and a selection that is
    left- or right-aligned with another neither strictly contains it
    nor lies strictly inside it. *)
Theorem aligned_never_strict (s t : PropertySelection) :
  isLeftAlignedWith s (PropSel t) = isLeftAlignedWith t (PropSel s) /\
  isRightAlignedWith s (PropSel t) = isRightAlignedWith t (PropSel s) /\
  (isLeftAlignedWith s (PropSel t) = Normal true \/
   isRightAlignedWith s (PropSel t) = Normal true ->
   contains s (PropSel t) (Some true) = Normal false /\
   isInsideOf s (PropSel t) (Some true) = Normal false).
Proof.
  unfold isLeftAlignedWith, isRightAlignedWith, contains, isInsideOf.
  cbn [flag JS.truthy].
  rewrite (isEqual_sym (path t) (path s)),
    (seq_sym (startOffset t)), (seq_sym (endOffset t)).
  split; [reflexivity | split; [reflexivity|]].
  destruct (isEqual (path s) (path t)); cbn [andb];
    [|intros [H|H]; discriminate].
  intros [H|H]; injection H as H; apply seq_not_lt in H as [H1 H2];
    rewrite H1, H2, ?andb_false_r; split; reflexivity.
Qed.

Lemma aligned_never_strict_witness :
  contains (sel p1 1 5) (PropSel (sel p1 1 3)) (Some true) = Normal false /\
  isInsideOf (sel p1 1 5) (PropSel (sel p1 1 3)) (Some true) = Normal false.
Proof.
  destruct (aligned_never_strict (sel p1 1 5) (sel p1 1 3)) as (_ & _ & H).
  apply H. left. reflexivity.
Defined.

End SelectionAlgebra.

(** ** The list package *)

Module ListFacts.

Import ListPackage Samples.

Lemma indexOf_from_absent l x k : x ∉ l -> indexOf_from l x k = -1.
Proof.
  revert k. induction l as [|y l IH]; intros k Hx; [reflexivity|].
  cbn [indexOf_from]. apply not_elem_of_cons in Hx as [Hne Hx].
  destruct (String.eqb_spec y x) as [E|_]; [congruence|]. apply IH. exact Hx.
Qed.

Lemma indexOf_from_first pre x post k :
  x ∉ pre -> indexOf_from (pre ++ x :: post)%list x k = k + Z.of_nat (length pre).
Proof.
  revert k. induction pre as [|y pre IH]; intros k Hx.
  - cbn. rewrite String.eqb_refl. lia.
  - apply not_elem_of_cons in Hx as [Hne Hx]. cbn [app indexOf_from].
    destruct (String.eqb_spec y x) as [E|_]; [congruence|].
    rewrite (IH _ Hx). cbn [length]. lia.
Qed.

Lemma splice_delete_at pre x post :
  splice_delete (Z.of_nat (length pre)) (pre ++ x :: post)%list = (pre ++ post)%list.
Proof.
  unfold splice_delete. rewrite Nat2Z.id.
  rewrite take_app_length.
  change (S (length pre)) with (1 + length pre)%nat.
  rewrite Nat.add_comm, <- drop_drop, drop_app_length. reflexivity.
Qed.

Lemma splice_insert_at pre x post :
  splice_insert (Z.of_nat (length pre)) x (pre ++ post)%list = (pre ++ x :: post)%list.
Proof.
  unfold splice_insert. rewrite Nat2Z.id, take_app_length, drop_app_length.
  reflexivity.
Qed.

(** X22: [removeItem] of an id that is not among the items throws 'List
    item is not a child of this list' and leaves the document as it
    was. *)
Theorem removeItem_not_a_child (this i : string) (doc : Document) (l : ListNode) :
  doc !! this = Some l ->
  i ∉ items l ->
  removeItem this i doc = mkOutcome doc (Some (NotAChild i)).
Proof.
  intros Hl Hi. unfold removeItem. rewrite Hl.
  unfold indexOf. rewrite (indexOf_from_absent _ _ _ Hi). reflexivity.
Qed.

Lemma removeItem_not_a_child_witness :
  removeItem "l1" "i9" list_doc = mkOutcome list_doc (Some (NotAChild "i9")).
Proof.
  apply (removeItem_not_a_child "l1" "i9" list_doc shopping); [reflexivity|].
  unfold shopping. cbn [items]. intros H.
  repeat (apply elem_of_cons in H as [H|H]; [discriminate|]).
  apply elem_of_nil in H. exact H.
Defined.

(** X23: [removeItem] of an item takes out its first occurrence and
    nothing else: the items before and after it stay, in order, and
    nothing is thrown; when the id occurs once it is gone afterwards. *)
Theorem removeItem_first_occurrence (this i : string) (doc : Document) (l : ListNode)
    (pre post : list string) :
  doc !! this = Some l ->
  items l = (pre ++ i :: post)%list ->
  i ∉ pre ->
  removeItem this i doc =
    mkOutcome (<[this := mkListNode (id l) (ordered l) (pre ++ post)]> doc) None /\
  (i ∉ post -> i ∉ (pre ++ post)%list).
Proof.
  intros Hl Hitems Hpre. split.
  - unfold removeItem. rewrite Hl, Hitems.
    unfold indexOf. rewrite (indexOf_from_first _ _ _ _ Hpre), Z.add_0_l.
    destruct (Z.geb_spec (Z.of_nat (length pre)) 0) as [_|Hneg]; [|lia].
    unfold update_items. rewrite Hl, Hitems, splice_delete_at. reflexivity.
  - intros Hpost Hin. apply elem_of_app in Hin as [H|H]; contradiction.
Qed.

Lemma removeItem_first_occurrence_witness :
  removeItem "l1" "i2" list_doc =
    mkOutcome (<["l1" := mkListNode "l1" false ["i1"; "i3"]]> list_doc) None.
Proof.
  apply (removeItem_first_occurrence "l1" "i2" list_doc shopping ["i1"] ["i3"]);
    [reflexivity | reflexivity |].
  intros H. apply elem_of_cons in H as [H|H]; [discriminate|].
  apply elem_of_nil in H. exact H.
Defined.

(** X24: inserting a new id at an offset within the items and removing
    it again gives back the document: after [insertItemAt(offset, id)]
    the id sits at [offset], and [removeItem(id)] restores the items. *)
Theorem insertItemAt_removeItem (this i : string) (offset : Z) (doc : Document)
    (l : ListNode) :
  doc !! this = Some l ->
  i ∉ items l ->
  0 <= offset <= Z.of_nat (length (items l)) ->
  let r := insertItemAt this offset i doc in
  thrown r = None /\
  (exists l', after r !! this = Some l' /\
              items l' !! Z.to_nat offset = Some i /\
              length (items l') = S (length (items l))) /\
  removeItem this i (after r) = mkOutcome doc None.
Proof.
  intros Hl Hi Hoff r. subst r.
  set (n := Z.to_nat offset).
  assert (Hn : (n <= length (items l))%nat) by (unfold n; lia).
  assert (Hlen : length (take n (items l)) = n) by (rewrite length_take; lia).
  assert (Hsplice : splice_insert offset i (items l) =
                    (take n (items l) ++ i :: drop n (items l))%list) by reflexivity.
  assert (Hpre : i ∉ take n (items l)).
  { intros H. apply Hi. rewrite <- (take_drop n (items l)).
    apply elem_of_app. left. exact H. }
  unfold insertItemAt, update_items. rewrite Hl. cbn [thrown after].
  rewrite Hsplice. split; [reflexivity|]. split.
  - eexists. split; [apply lookup_insert_eq|]. cbn [items]. split.
    + rewrite lookup_app_r by lia. rewrite Hlen, Nat.sub_diag. reflexivity.
    + rewrite length_app. cbn [length]. rewrite Hlen, length_drop. lia.
  - destruct (removeItem_first_occurrence this i
                (<[this := mkListNode (id l) (ordered l)
                             (take n (items l) ++ i :: drop n (items l))]> doc)
                (mkListNode (id l) (ordered l)
                   (take n (items l) ++ i :: drop n (items l)))
                (take n (items l)) (drop n (items l))
                (lookup_insert_eq _ _ _) eq_refl Hpre) as [Hrm _].
    etransitivity; [exact Hrm|]. cbn [id ordered]. unfold Document in *.
    rewrite insert_insert_eq, take_drop.
    f_equal. apply insert_id. rewrite Hl. destruct l; reflexivity.
Qed.

Lemma insertItemAt_removeItem_witness :
  removeItem "l1" "i9" (after (insertItemAt "l1" 1 "i9" list_doc)) =
    mkOutcome list_doc None.
Proof.
  destruct (insertItemAt_removeItem "l1" "i9" 1 list_doc shopping) as (_ & _ & H).
  - reflexivity.
  - unfold shopping. cbn [items]. intros H.
    repeat (apply elem_of_cons in H as [H|H]; [discriminate|]).
    apply elem_of_nil in H. exact H.
  - cbn. lia.
  - exact H.
Defined.

End ListFacts.

(** ** Further properties of the merge transformation *)

Module MergeRuns.

Import Selection Merge Compare JSFacts Samples MergeFacts.

Lemma bind_throw {A B : Type} (m : M A) (k : A -> M B) tx tx1 l e :
  m tx = mkResult tx1 l (Throw e) ->
  bind m k tx = mkResult tx1 l (Throw e).
Proof. intros H. unfold bind. rewrite H. reflexivity. Qed.

Lemma bind_normal_inv {A B : Type} (m : M A) (k : A -> M B) tx b :
  outcome (bind m k tx) = Normal b ->
  exists a, outcome (m tx) = Normal a /\ outcome (k a (final (m tx))) = Normal b.
Proof.
  unfold bind. destruct (outcome (m tx)) as [a| |]; cbn [outcome]; try discriminate.
  intros H. exists a. split; [reflexivity | exact H].
Qed.

Lemma set_selection_same (args : MergeArgs) :
  set_selection args (selection args) = args.
Proof. destruct args; reflexivity. Qed.

(** X12: whatever the custom mergers do, the [args] that [merge]
    returns are the [args] it was given with at most another
    [selection]: the keys added for the inner calls ([firstAddress],
    [secondAddress], [first], [second], [node]) never come back. *)
Theorem merge_changes_only_selection
    (run_custom : string -> MergeArgs -> M MergeArgs) (args a : MergeArgs) (tx : Tx) :
  outcome (merge run_custom args tx) = Normal a ->
  a = set_selection args (selection a).
Proof.
  assert (Hsame : forall x, outcome (ret (A := MergeArgs) args x) = Normal a ->
                            a = set_selection args (selection a)).
  { intros x H. injection H as <-. symmetry. apply set_selection_same. }
  assert (Hset : forall tmp x,
            outcome (ret (set_selection args (selection tmp)) x) = Normal a ->
            a = set_selection args (selection a)).
  { intros tmp x H. injection H as <-. reflexivity. }
  unfold merge.
  destruct (present (containerId args)) as [cid|]; [|discriminate].
  destruct (path args) as [p|]; [|discriminate].
  destruct (present (direction args)) as [d|]; [|discriminate].
  intros H.
  apply bind_normal_inv in H as (container & _ & H).
  apply bind_normal_inv in H as (address & _ & H).
  destruct (String.eqb d "right").
  - apply bind_normal_inv in H as ([next|] & _ & H).
    + apply bind_normal_inv in H as (tmp & _ & H). exact (Hset _ _ H).
    + exact (Hsame _ H).
  - destruct (String.eqb d "left").
    + apply bind_normal_inv in H as ([previous|] & _ & H).
      * apply bind_normal_inv in H as (tmp & _ & H). exact (Hset _ _ H).
      * exact (Hsame _ H).
    + exact (Hsame _ H).
Qed.

Lemma merge_changes_only_selection_witness :
  exists a,
    outcome (merge no_custom (merge_args p1 "right") (two_paragraphs "foo" "bar"))
      = Normal a /\
    a = set_selection (merge_args p1 "right") (selection a) /\
    selection a = Some (PropSel (sel p1 3 3)).
Proof.
  eexists. split; [reflexivity|]. split; [|reflexivity].
  apply (merge_changes_only_selection no_custom (merge_args p1 "right") _
           (two_paragraphs "foo" "bar")).
  reflexivity.
Defined.

(** X13: with a direction that is neither 'left' nor 'right', [merge]
    on an existing container returns its [args], changes nothing and
    logs nothing. *)
Theorem merge_unknown_direction
    (run_custom : string -> MergeArgs -> M MergeArgs) (args : MergeArgs) (tx : Tx)
    (cid d : string) (p : Path) (c : Container) :
  present (containerId args) = Some cid ->
  path args = Some p ->
  present (direction args) = Some d ->
  d <> "right" -> d <> "left" ->
  store tx !! cid = Some (ContainerEntry c) ->
  merge run_custom args tx = mkResult tx [] (Normal args).
Proof.
  intros Hc Hp Hd Hr Hl Hstore. unfold merge. rewrite Hc, Hp, Hd.
  destruct (String.eqb_spec d "right") as [E|_]; [contradiction|].
  destruct (String.eqb_spec d "left") as [E|_]; [contradiction|].
  eapply bind_silent; [unfold tx_get; rewrite Hstore; reflexivity|].
  eapply bind_silent; reflexivity.
Qed.

Lemma merge_unknown_direction_witness :
  merge no_custom (merge_args p1 "up") (two_paragraphs "foo" "bar") =
    mkResult (two_paragraphs "foo" "bar") [] (Normal (merge_args p1 "up")).
Proof.
  apply (merge_unknown_direction no_custom (merge_args p1 "up")
           (two_paragraphs "foo" "bar") "body" "up" p1 body);
    try reflexivity; discriminate.
Defined.

(** X14: when [containerId] names no container of the document, [merge]
    throws a [TypeError] at [container.getAddress], for every direction,
    and the document is as it was. *)
Theorem merge_missing_container
    (run_custom : string -> MergeArgs -> M MergeArgs) (args : MergeArgs) (tx : Tx)
    (cid d : string) (p : Path) :
  present (containerId args) = Some cid ->
  path args = Some p ->
  present (direction args) = Some d ->
  (forall c, store tx !! cid <> Some (ContainerEntry c)) ->
  merge run_custom args tx = mkResult tx [] (Throw TypeError).
Proof.
  intros Hc Hp Hd Hstore. unfold merge. rewrite Hc, Hp, Hd.
  eapply bind_silent; [reflexivity|]. cbv beta.
  apply bind_throw. cbn [tx_get final outcome logged].
  destruct (store tx !! cid) as [[n|c]|] eqn:E; try reflexivity.
  exfalso. apply (Hstore c). reflexivity.
Qed.

Lemma merge_missing_container_witness :
  merge no_custom
    (mkMergeArgs (Some "nowhere") (Some p1) (Some "right") None None None None
       None None None)
    (two_paragraphs "foo" "bar") =
    mkResult (two_paragraphs "foo" "bar") [] (Throw TypeError).
Proof.
  apply (merge_missing_container no_custom _ (two_paragraphs "foo" "bar")
           "nowhere" "right" p1); try reflexivity.
  intros c H. vm_compute in H. discriminate.
Defined.

(** What [_mergeComponents] does with two addresses of one container. *)
Section Components.

Variable run_custom : string -> MergeArgs -> M MergeArgs.
Variables (args : MergeArgs) (tx : Tx) (cid : string) (c : Container).
Variables (fa sa : Address) (n m : Node).
Hypothesis Hcid : containerId args = Some cid.
Hypothesis Hstore : store tx !! cid = Some (ContainerEntry c).
Hypothesis Hfa : firstAddress args = Some fa.
Hypothesis Hsa : secondAddress args = Some sa.
Hypothesis Hn : getChildAt tx c (head fa) = Some n.
Hypothesis Hm : getChildAt tx c (head sa) = Some m.

Lemma mergeComponents_nodes (k : option Node -> option Node -> M MergeArgs) :
  bind (tx_get (containerId args))
    (fun container =>
       bind (container_getChildAt container (firstAddress args))
         (fun firstNode =>
            bind (container_getChildAt container (secondAddress args))
              (fun secondNode => k firstNode secondNode))) tx =
  k (Some n) (Some m) tx.
Proof.
  rewrite Hcid, Hfa, Hsa.
  eapply bind_silent; [unfold tx_get; rewrite Hstore; reflexivity|]. cbv beta.
  eapply bind_silent; [unfold container_getChildAt; rewrite Hn; reflexivity|]. cbv beta.
  eapply bind_silent; [unfold container_getChildAt; rewrite Hm; reflexivity|].
  reflexivity.
Qed.

Lemma mergeComponents_distinct :
  id n <> id m ->
  _mergeComponents run_custom args tx =
    bind (_getNodeMerger (editingBehavior args) n m)
      (fun mergeTrafo =>
         match mergeTrafo with
         | Some mergeTrafo =>
             call run_custom mergeTrafo
               (extend_nodes args (containerId args) (Some n) (Some m))
         | None => ret args
         end) tx.
Proof.
  intros Hid. unfold _mergeComponents.
  rewrite (mergeComponents_nodes
             (fun firstNode secondNode =>
                if same_node firstNode secondNode then _ else _)).
  unfold same_node.
  destruct (String.eqb_spec (id n) (id m)) as [E|_]; [contradiction|].
  reflexivity.
Qed.

End Components.

(** X15: when both addresses belong to one node and no editing behavior
    is given, or the behavior cannot merge components of that node's
    type, [_mergeComponents] returns its [args], changes nothing and,
    unlike the case of two nodes without a merger, logs nothing. *)
Theorem mergeComponents_same_node
    (run_custom : string -> MergeArgs -> M MergeArgs) (args : MergeArgs) (tx : Tx)
    (cid : string) (c : Container) (fa sa : Address) (n m : Node) :
  containerId args = Some cid ->
  store tx !! cid = Some (ContainerEntry c) ->
  firstAddress args = Some fa -> secondAddress args = Some sa ->
  getChildAt tx c (head fa) = Some n ->
  getChildAt tx c (head sa) = Some m ->
  id n = id m ->
  editingBehavior args = None \/
  (exists b, editingBehavior args = Some b /\ canMergeComponents b (type n) = false) ->
  _mergeComponents run_custom args tx = mkResult tx [] (Normal args).
Proof.
  intros Hcid Hstore Hfa Hsa Hn Hm Hid Hb. unfold _mergeComponents.
  rewrite (mergeComponents_nodes args tx cid c fa sa n m Hcid Hstore Hfa Hsa Hn Hm
             (fun firstNode secondNode =>
                if same_node firstNode secondNode then _ else _)).
  unfold same_node. rewrite Hid, String.eqb_refl.
  destruct Hb as [-> | (b & -> & Hcan)]; [reflexivity|].
  rewrite Hcan. reflexivity.
Qed.

Lemma mergeComponents_same_node_witness :
  _mergeComponents no_custom
    (extend_addresses (merge_args ["t2"; "c1"] "right") (Some "body")
       (Some [0%nat; 0%nat]) (Some [0%nat; 1%nat]))
    one_table =
  mkResult one_table []
    (Normal (extend_addresses (merge_args ["t2"; "c1"] "right") (Some "body")
               (Some [0%nat; 0%nat]) (Some [0%nat; 1%nat]))).
Proof.
  apply (mergeComponents_same_node no_custom _ one_table "body"
           (mkContainer "body" ["t2"]) [0%nat; 0%nat] [0%nat; 1%nat]
           (mkNode "t2" "table" false "" [["t2"; "c1"]; ["t2"; "c2"]])
           (mkNode "t2" "table" false "" [["t2"; "c1"]; ["t2"; "c2"]]));
    try reflexivity.
  left. reflexivity.
Defined.

(** X16: [_mergeTextNodes] on a first or second node that is missing or
    is not a text node throws a [TypeError] before it changes anything:
    the document is as it was and nothing is logged. *)
Theorem mergeTextNodes_not_text (args : MergeArgs) (tx : Tx) :
  (forall f, first args = Some f -> isText f = false) \/
  (forall s, second args = Some s -> isText s = false) ->
  _mergeTextNodes args tx = mkResult tx [] (Throw TypeError).
Proof.
  intros H. unfold _mergeTextNodes.
  eapply bind_silent; [reflexivity|]. cbv beta.
  destruct (first args) as [f|] eqn:Hf.
  - destruct (isText f) eqn:Htf.
    + destruct H as [H|H]; [rewrite (H f eq_refl) in Htf; discriminate|].
      eapply bind_silent; [unfold getTextPath; rewrite Htf; reflexivity|]. cbv beta.
      eapply bind_silent; [unfold getText; rewrite Htf; reflexivity|]. cbv beta.
      apply bind_throw. unfold getTextPath.
      destruct (second args) as [s|]; [|reflexivity].
      rewrite (H s eq_refl). reflexivity.
    + apply bind_throw. unfold getTextPath. rewrite Htf. reflexivity.
  - apply bind_throw. reflexivity.
Qed.

Lemma mergeTextNodes_not_text_witness :
  _mergeTextNodes
    (mkMergeArgs (Some "body") (Some p1) (Some "right") None None None None
       (Some (paragraph "p1" "foo")) None None)
    (two_paragraphs "foo" "bar") =
    mkResult (two_paragraphs "foo" "bar") [] (Throw TypeError).
Proof.
  apply mergeTextNodes_not_text. right. intros s H. discriminate.
Defined.

(** X17: [_mergeTextNodes] with a [containerId] under which the document
    holds nothing throws a [TypeError] at [container.hide]. When the
    first text is empty nothing has changed by then; otherwise the text
    has already been appended and the annotations transferred, and both
    changes stay. *)
Theorem mergeTextNodes_missing_container (args : MergeArgs) (tx : Tx) (cid : string)
    (f s : Node) :
  containerId args = Some cid ->
  store tx !! cid = None ->
  first args = Some f -> second args = Some s ->
  isText f = true -> isText s = true ->
  (Z.of_nat (String.length (content f)) = 0 ->
   _mergeTextNodes args tx = mkResult tx [] (Throw TypeError)) /\
  (Z.of_nat (String.length (content f)) <> 0 ->
   store tx !! id f = Some (NodeEntry f) ->
   _mergeTextNodes args tx =
     mkResult
       (mkTx (<[id f := NodeEntry
                          (mkNode (id f) (type f) (isText f)
                             (content f ++ content s)%string (components f))]>
                (store tx))
          (transfer [id s; "content"] 0 [id f; "content"]
             (Z.of_nat (String.length (content f))) <$> annotations tx)
          (journal tx ++
             [call_update [id f; "content"] (Z.of_nat (String.length (content f)))
                (content s);
              call_transferAnnotations [id s; "content"] 0 [id f; "content"]
                (Z.of_nat (String.length (content f)))]))
       [] (Throw TypeError)).
Proof.
  intros Hcid Hnone Hf Hs Htf Hts.
  split.
  - intros Hlen. unfold _mergeTextNodes. rewrite Hcid, Hf, Hs.
    eapply bind_silent; [unfold tx_get; rewrite Hnone; reflexivity|]. cbv beta.
    eapply bind_silent; [unfold getTextPath; rewrite Htf; reflexivity|]. cbv beta.
    eapply bind_silent; [unfold getText; rewrite Htf; reflexivity|]. cbv beta.
    eapply bind_silent; [unfold getTextPath; rewrite Hts; reflexivity|]. cbv beta.
    eapply bind_silent; [unfold getText; rewrite Hts; reflexivity|]. cbv beta.
    rewrite Hlen. change (0 =? 0) with true. cbv iota.
    apply bind_throw. apply bind_throw. reflexivity.
  - intros Hlen Hsf. unfold _mergeTextNodes. rewrite Hcid, Hf, Hs.
    eapply bind_silent; [unfold tx_get; rewrite Hnone; reflexivity|]. cbv beta.
    eapply bind_silent; [unfold getTextPath; rewrite Htf; reflexivity|]. cbv beta.
    eapply bind_silent; [unfold getText; rewrite Htf; reflexivity|]. cbv beta.
    eapply bind_silent; [unfold getTextPath; rewrite Hts; reflexivity|]. cbv beta.
    eapply bind_silent; [unfold getText; rewrite Hts; reflexivity|]. cbv beta.
    destruct (Z.eqb_spec (Z.of_nat (String.length (content f))) 0) as [E|_];
      [contradiction|].
    apply bind_throw.
    eapply bind_silent;
      [unfold tx_update_insert; rewrite Hsf, Nat2Z.id, insertText_at_end; reflexivity|].
    cbv beta.
    eapply bind_silent; [reflexivity|]. cbv beta.
    apply bind_throw. unfold container_hide, throw.
    cbn [store annotations journal]. rewrite <- !app_assoc. reflexivity.
Qed.

Lemma mergeTextNodes_missing_container_witness :
  (let r := _mergeTextNodes
              (mkMergeArgs (Some "nowhere") (Some p1) (Some "right") None None None None
                 (Some (paragraph "p1" "foo")) (Some (paragraph "p2" "bar")) None)
              (two_paragraphs "foo" "bar") in
   outcome r = Throw TypeError /\
   store (final r) !! "p1" = Some (NodeEntry (paragraph "p1" "foobar")) /\
   store (final r) !! "p2" = Some (NodeEntry (paragraph "p2" "bar"))).
Proof.
  destruct (mergeTextNodes_missing_container
              (mkMergeArgs (Some "nowhere") (Some p1) (Some "right") None None None None
                 (Some (paragraph "p1" "foo")) (Some (paragraph "p2" "bar")) None)
              (two_paragraphs "foo" "bar") "nowhere"
              (paragraph "p1" "foo") (paragraph "p2" "bar")
              eq_refl eq_refl eq_refl eq_refl eq_refl eq_refl) as [_ H].
  cbv zeta. rewrite (H ltac:(discriminate) eq_refl).
  repeat split.
Defined.

Lemma length_append (a b : string) :
  String.length (a ++ b) = (String.length a + String.length b)%nat.
Proof.
  induction a as [|ch a IH]; [reflexivity|].
  change (S (String.length (a ++ b)) = S (String.length a + String.length b)).
  rewrite IH. reflexivity.
Qed.

Lemma transfer_other_path p offset newPath newOffset a :
  anno_path a <> p -> transfer p offset newPath newOffset a = a.
Proof.
  intros H. unfold transfer.
  destruct (isEqual (anno_path a) p) eqn:E; [|reflexivity].
  apply isEqual_true in E. contradiction.
Qed.

(** The text merge of two text nodes stored in a document. *)
Section TextNodes.

Variables (args : MergeArgs) (tx : Tx) (cid : string) (c : Container) (f s : Node).
Hypothesis Hcid : containerId args = Some cid.
Hypothesis Hf : first args = Some f.
Hypothesis Hs : second args = Some s.
Hypothesis Hc : store tx !! cid = Some (ContainerEntry c).
Hypothesis Hcname : container_id c = cid.
Hypothesis Hsf : store tx !! id f = Some (NodeEntry f).
Hypothesis Hss : store tx !! id s = Some (NodeEntry s).
Hypothesis Htf : isText f = true.
Hypothesis Hts : isText s = true.
Hypothesis Hne : id f <> id s.

Lemma mergeTextNodes_cases :
  (Z.of_nat (String.length (content f)) = 0 /\
   _mergeTextNodes args tx =
     mkResult
       (mkTx (delete (id f)
                (<[cid := ContainerEntry
                            (mkContainer cid
                               (filter (fun j => Some j <> Some (id f)) (nodes c)))]>
                   (store tx)))
          (annotations tx)
          (journal tx ++ [call_hide cid (Some (id f)); call_delete (id f)]))
       []
       (Normal (set_selection args
                  (Some (PropSel (mkPropertySelection [id s; "content"]
                                    (JS.num 0) (JS.num 0) false None None)))))) \/
  (Z.of_nat (String.length (content f)) <> 0 /\
   _mergeTextNodes args tx =
     mkResult
       (mkTx (delete (id s)
                (<[cid := ContainerEntry
                            (mkContainer cid
                               (filter (fun j => Some j <> Some (id s)) (nodes c)))]>
                   (<[id f := NodeEntry
                                (mkNode (id f) (type f) (isText f)
                                   (content f ++ content s)%string (components f))]>
                      (store tx))))
          (transfer [id s; "content"] 0 [id f; "content"]
             (Z.of_nat (String.length (content f))) <$> annotations tx)
          (journal tx ++
             [call_update [id f; "content"] (Z.of_nat (String.length (content f)))
                (content s);
              call_transferAnnotations [id s; "content"] 0 [id f; "content"]
                (Z.of_nat (String.length (content f)));
              call_hide cid (Some (id s));
              call_delete (id s)]))
       []
       (Normal (set_selection args
                  (Some (PropSel (mkPropertySelection [id f; "content"]
                                    (JS.num (Z.of_nat (String.length (content f))))
                                    (JS.num (Z.of_nat (String.length (content f))))
                                    false None None)))))).
Proof.
  destruct (Z.eq_dec (Z.of_nat (String.length (content f))) 0) as [Hlen|Hlen].
  - left. split; [exact Hlen|].
    exact (mergeTextNodes_empty args tx cid c f s Hcid Hf Hs Hc Hcname Htf Hts Hlen).
  - right. split; [exact Hlen|].
    exact (mergeTextNodes_append args tx cid c f s Hcid Hf Hs Hc Hcname Htf Hts
             Hsf Hlen).
Qed.

End TextNodes.

(** X18: the text merge touches the two nodes and the container only:
    every other record of the document is as before, every annotation
    that is not on the second node's text is as before, no annotation
    is added or dropped, and nothing is logged. *)
Theorem mergeTextNodes_frame (args : MergeArgs) (tx : Tx) (cid : string)
    (c : Container) (f s : Node) :
  containerId args = Some cid ->
  first args = Some f -> second args = Some s ->
  store tx !! cid = Some (ContainerEntry c) -> container_id c = cid ->
  store tx !! id f = Some (NodeEntry f) ->
  store tx !! id s = Some (NodeEntry s) ->
  isText f = true -> isText s = true -> id f <> id s ->
  let r := _mergeTextNodes args tx in
  (forall k, k <> cid -> k <> id f -> k <> id s ->
     store (final r) !! k = store tx !! k) /\
  (forall a, a ∈ annotations tx -> anno_path a <> [id s; "content"] ->
     a ∈ annotations (final r)) /\
  length (annotations (final r)) = length (annotations tx) /\
  logged r = [].
Proof.
  intros Hcid Hf Hs Hc Hcname Hsf Hss Htf Hts Hne r. subst r.
  destruct (mergeTextNodes_cases args tx cid c f s Hcid Hf Hs Hc Hcname Hsf Htf Hts)
    as [[_ ->] | [_ ->]]; cbn [final logged store annotations].
  - repeat split.
    + intros k H1 H2 H3. rewrite lookup_delete_ne, lookup_insert_ne by congruence.
      reflexivity.
    + intros a Ha _. exact Ha.
  - repeat split.
    + intros k H1 H2 H3.
      rewrite lookup_delete_ne, !lookup_insert_ne by congruence. reflexivity.
    + intros a Ha Hpath. apply list_elem_of_fmap. exists a. split; [|exact Ha].
      symmetry. apply transfer_other_path. exact Hpath.
    + apply length_fmap.
Qed.

Lemma mergeTextNodes_frame_witness :
  store (final (_mergeTextNodes (text_merge_args "foo" "bar")
                  (with_note (two_paragraphs "foo" "bar")))) !! "n1" =
    Some (NodeEntry (paragraph "n1" "note")).
Proof.
  destruct (mergeTextNodes_frame (text_merge_args "foo" "bar")
              (with_note (two_paragraphs "foo" "bar"))
              "body" body (paragraph "p1" "foo") (paragraph "p2" "bar")
              eq_refl eq_refl eq_refl eq_refl eq_refl eq_refl eq_refl eq_refl eq_refl
              ltac:(discriminate)) as [H _].
  rewrite (H "n1") by discriminate. reflexivity.
Defined.

(** X19: the selection the text merge returns is a cursor inside the
    text of a node that is still in the document: its path is the text
    path of the surviving node and its offset lies between 0 and the
    length of that node's text. *)
Theorem mergeTextNodes_selection_in_bounds (args : MergeArgs) (tx : Tx) (cid : string)
    (c : Container) (f s : Node) :
  containerId args = Some cid ->
  first args = Some f -> second args = Some s ->
  store tx !! cid = Some (ContainerEntry c) -> container_id c = cid ->
  store tx !! id f = Some (NodeEntry f) ->
  store tx !! id s = Some (NodeEntry s) ->
  isText f = true -> isText s = true -> id f <> id s ->
  let r := _mergeTextNodes args tx in
  exists a sel n o,
    outcome r = Normal a /\ selection a = Some (PropSel sel) /\
    store (final r) !! id n = Some (NodeEntry n) /\ isText n = true /\
    Selection.path sel = [id n; "content"] /\
    startOffset sel = JS.num o /\ endOffset sel = JS.num o /\
    0 <= o <= Z.of_nat (String.length (content n)).
Proof.
  intros Hcid Hf Hs Hc Hcname Hsf Hss Htf Hts Hne r. subst r.
  assert (Hcf : cid <> id f) by (intros ->; rewrite Hc in Hsf; discriminate).
  assert (Hcs : cid <> id s) by (intros ->; rewrite Hc in Hss; discriminate).
  destruct (mergeTextNodes_cases args tx cid c f s Hcid Hf Hs Hc Hcname Hsf Htf Hts)
    as [[_ ->] | [_ ->]]; cbn [final outcome store].
  - eexists.
    exists (mkPropertySelection [id s; "content"] (JS.num 0) (JS.num 0) false None None),
      s, 0.
    repeat split; try assumption; try lia.
    rewrite lookup_delete_ne, lookup_insert_ne by congruence. exact Hss.
  - eexists.
    exists (mkPropertySelection [id f; "content"]
              (JS.num (Z.of_nat (String.length (content f))))
              (JS.num (Z.of_nat (String.length (content f)))) false None None),
      (mkNode (id f) (type f) (isText f) (content f ++ content s)%string (components f)),
      (Z.of_nat (String.length (content f))).
    cbn [id isText content]. repeat split; try assumption; try lia.
    + rewrite lookup_delete_ne, lookup_insert_ne, lookup_insert_eq by congruence.
      reflexivity.
    + rewrite length_append. lia.
Qed.

Lemma mergeTextNodes_selection_in_bounds_witness :
  exists a sel n o,
    outcome (_mergeTextNodes (text_merge_args "foo" "bar") (two_paragraphs "foo" "bar")) =
      Normal a /\
    selection a = Some (PropSel sel) /\
    store (final (_mergeTextNodes (text_merge_args "foo" "bar")
                    (two_paragraphs "foo" "bar"))) !! id n = Some (NodeEntry n) /\
    isText n = true /\
    Selection.path sel = [id n; "content"] /\
    startOffset sel = JS.num o /\ endOffset sel = JS.num o /\
    0 <= o <= Z.of_nat (String.length (content n)).
Proof.
  exact (mergeTextNodes_selection_in_bounds (text_merge_args "foo" "bar")
           (two_paragraphs "foo" "bar") "body" body
           (paragraph "p1" "foo") (paragraph "p2" "bar")
           eq_refl eq_refl eq_refl eq_refl eq_refl eq_refl eq_refl eq_refl eq_refl
           ltac:(discriminate)).
Defined.

Lemma present_Some (x : option string) (v : string) :
  present x = Some v -> x = Some v.
Proof.
  unfold present. destruct x as [y|]; [|discriminate].
  destruct (String.eqb y ""); [discriminate|]. exact (fun H => H).
Qed.

Lemma bind_normal {A B : Type} (m : M A) (k : A -> M B) tx tx1 l1 a :
  m tx = mkResult tx1 l1 (Normal a) ->
  bind m k tx =
    mkResult (final (k a tx1)) (l1 ++ logged (k a tx1)) (outcome (k a tx1)).
Proof. intros H. unfold bind. rewrite H. reflexivity. Qed.

(** [merge] with a neighbour in the given direction hands the pair of
    addresses, first before second, to [_mergeComponents]. *)
Lemma merge_neighbour
    (run_custom : string -> MergeArgs -> M MergeArgs) (args : MergeArgs) (tx : Tx)
    (cid d : string) (p : Path) (c : Container) (fa sa : Address) :
  present (containerId args) = Some cid ->
  path args = Some p ->
  present (direction args) = Some d ->
  store tx !! cid = Some (ContainerEntry c) ->
  (d = "right" /\ getAddress tx c p = Some fa /\
   getNextAddress tx c (Some fa) = Some sa) \/
  (d = "left" /\ getAddress tx c p = Some sa /\
   getPreviousAddress tx c (Some sa) = Some fa) ->
  merge run_custom args tx =
    bind (_mergeComponents run_custom
            (extend_addresses args (Some cid) (Some fa) (Some sa)))
      (fun tmp => ret (set_selection args (selection tmp))) tx.
Proof.
  intros Hc Hp Hd Hstore Hdir. unfold merge. rewrite Hc, Hp, Hd.
  eapply bind_silent; [unfold tx_get; rewrite Hstore; reflexivity|]. cbv beta.
  destruct Hdir as [(-> & Ha & Hnext) | (-> & Ha & Hprev)].
  - eapply bind_silent; [unfold container_getAddress; rewrite Ha; reflexivity|].
    cbv beta. change (String.eqb "right" "right") with true. cbv iota.
    eapply bind_silent;
      [unfold container_getNextAddress; rewrite Hnext; reflexivity|].
    reflexivity.
  - eapply bind_silent; [unfold container_getAddress; rewrite Ha; reflexivity|].
    cbv beta. change (String.eqb "left" "right") with false.
    change (String.eqb "left" "left") with true. cbv iota.
    eapply bind_silent;
      [unfold container_getPreviousAddress; rewrite Hprev; reflexivity|].
    reflexivity.
Qed.

(** X20: [merge] between two neighbouring text nodes, without an editing
    behavior, does the built-in text merge on the pair ordered as in
    the container, whether it is asked from the first node to the right
    or from the second node to the left; it returns the caller's [args]
    with the cursor at the seam. *)
Theorem merge_text_nodes
    (run_custom : string -> MergeArgs -> M MergeArgs) (args : MergeArgs) (tx : Tx)
    (cid d : string) (p : Path) (c : Container) (fa sa : Address) (f s : Node) :
  present (containerId args) = Some cid ->
  path args = Some p ->
  present (direction args) = Some d ->
  editingBehavior args = None ->
  store tx !! cid = Some (ContainerEntry c) -> container_id c = cid ->
  (d = "right" /\ getAddress tx c p = Some fa /\
   getNextAddress tx c (Some fa) = Some sa) \/
  (d = "left" /\ getAddress tx c p = Some sa /\
   getPreviousAddress tx c (Some sa) = Some fa) ->
  getChildAt tx c (head fa) = Some f ->
  getChildAt tx c (head sa) = Some s ->
  store tx !! id f = Some (NodeEntry f) ->
  isText f = true -> isText s = true -> id f <> id s ->
  let firstLength := Z.of_nat (String.length (content f)) in
  let hidden i := mkContainer cid (filter (fun j => Some j <> Some i) (nodes c)) in
  (merge run_custom args tx =
    if firstLength =? 0 then
      mkResult
        (mkTx (delete (id f) (<[cid := ContainerEntry (hidden (id f))]> (store tx)))
           (annotations tx)
           (journal tx ++ [call_hide cid (Some (id f)); call_delete (id f)]))
        []
        (Normal (set_selection args
                   (Some (PropSel (mkPropertySelection [id s; "content"]
                                     (JS.num 0) (JS.num 0) false None None)))))
    else
      mkResult
        (mkTx (delete (id s)
                 (<[cid := ContainerEntry (hidden (id s))]>
                    (<[id f := NodeEntry
                                 (mkNode (id f) (type f) (isText f)
                                    (content f ++ content s)%string (components f))]>
                       (store tx))))
           (transfer [id s; "content"] 0 [id f; "content"] firstLength
              <$> annotations tx)
           (journal tx ++
              [call_update [id f; "content"] firstLength (content s);
               call_transferAnnotations [id s; "content"] 0 [id f; "content"]
                 firstLength;
               call_hide cid (Some (id s));
               call_delete (id s)]))
        []
        (Normal (set_selection args
                   (Some (PropSel (mkPropertySelection [id f; "content"]
                                     (JS.num firstLength) (JS.num firstLength)
                                     false None None)))))) /\
  (exists a,
     outcome (merge run_custom args tx) = Normal a /\
     same_keys a args /\
     selection a =
       Some (PropSel
               (if firstLength =? 0 then
                  mkPropertySelection [id s; "content"] (JS.num 0) (JS.num 0)
                    false None None
                else
                  mkPropertySelection [id f; "content"] (JS.num firstLength)
                    (JS.num firstLength) false None None))).
Proof.
  intros Hc Hp Hd Hb Hstore Hcname Hdir Hf Hs Hsf Htf Hts Hne firstLength hidden.
  assert (Hkeys : forall x, same_keys (set_selection args x) args)
    by (intros x; repeat split).
  match goal with |- ?equation /\ _ => assert (Heq : equation) end.
  { rewrite (merge_neighbour run_custom args tx cid d p c fa sa Hc Hp Hd Hstore Hdir).
    set (args1 := extend_addresses args (Some cid) (Some fa) (Some sa)).
    set (args2 := extend_nodes args1 (containerId args1) (Some f) (Some s)).
    assert (Hcomp : _mergeComponents run_custom args1 tx = _mergeTextNodes args2 tx).
    { rewrite (mergeComponents_distinct run_custom args1 tx cid c fa sa f s
                 eq_refl Hstore eq_refl eq_refl Hf Hs Hne).
      change (editingBehavior args1) with (editingBehavior args). rewrite Hb.
      eapply bind_silent;
        [unfold _getNodeMerger; rewrite Htf, Hts; reflexivity | reflexivity]. }
    destruct (mergeTextNodes_cases args2 tx cid c f s eq_refl eq_refl eq_refl
                Hstore Hcname Hsf Htf Hts) as [[Hlen Hrun] | [Hlen Hrun]].
    - fold firstLength in Hlen. rewrite Hlen. change (0 =? 0) with true. cbv iota.
      eapply bind_silent; [rewrite Hcomp; exact Hrun|]. reflexivity.
    - fold firstLength in Hlen.
      destruct (Z.eqb_spec firstLength 0) as [E|_]; [contradiction|].
      eapply bind_silent; [rewrite Hcomp; exact Hrun|]. reflexivity. }
  split; [exact Heq|]. rewrite Heq.
  destruct (firstLength =? 0); eexists;
    (split; [reflexivity|]; split; [apply Hkeys | reflexivity]).
Qed.

Lemma merge_text_nodes_witness :
  final (merge no_custom (merge_args p1 "right") (two_paragraphs "foo" "bar")) =
    final (merge no_custom (merge_args p2 "left") (two_paragraphs "foo" "bar")) /\
  (exists a,
     outcome (merge no_custom (merge_args p2 "left") (two_paragraphs "foo" "bar")) =
       Normal a /\
     same_keys a (merge_args p2 "left") /\
     selection a = Some (PropSel (sel p1 3 3))).
Proof.
  destruct (merge_text_nodes no_custom (merge_args p1 "right")
              (two_paragraphs "foo" "bar") "body" "right" p1 body
              [0%nat; 0%nat] [1%nat; 0%nat] (paragraph "p1" "foo") (paragraph "p2" "bar")
              eq_refl eq_refl eq_refl eq_refl eq_refl eq_refl
              (or_introl (conj eq_refl (conj eq_refl eq_refl)))
              eq_refl eq_refl eq_refl eq_refl eq_refl ltac:(discriminate))
    as [Hright _].
  destruct (merge_text_nodes no_custom (merge_args p2 "left")
              (two_paragraphs "foo" "bar") "body" "left" p2 body
              [0%nat; 0%nat] [1%nat; 0%nat] (paragraph "p1" "foo") (paragraph "p2" "bar")
              eq_refl eq_refl eq_refl eq_refl eq_refl eq_refl
              (or_intror (conj eq_refl (conj eq_refl eq_refl)))
              eq_refl eq_refl eq_refl eq_refl eq_refl ltac:(discriminate))
    as [Hleft Hsel].
  split; [rewrite Hright, Hleft; reflexivity | exact Hsel].
Defined.

Lemma getNodeMerger_none (behavior : option EditingBehavior) (n m : Node) (tx : Tx) :
  first_applicable (resolution_order behavior n m) = noStrategy ->
  _getNodeMerger behavior n m tx =
    mkResult tx [Info "No merge behavior defined for %s <- %s" [type n; type m]]
      (Normal None).
Proof.
  unfold _getNodeMerger, resolution_order, first_applicable, is_registered.
  destruct behavior as [b|].
  - destruct (canMerge b (type n) (type m)); [discriminate|].
    destruct (isText n); cbn [andb].
    + destruct (canMerge b "textish" (type m)); [discriminate|].
      destruct (isText m); cbn [andb]; [|reflexivity].
      destruct (canMerge b (type n) "textish"); discriminate.
    + destruct (isText m); cbn [andb]; [|reflexivity].
      destruct (canMerge b (type n) "textish"); [discriminate | reflexivity].
  - rewrite !andb_false_r.
    destruct (isText n), (isText m); cbn [andb]; try reflexivity; discriminate.
Qed.

(** X21: [merge] between two neighbouring nodes for which no merger is
    found returns exactly the [args] it was given, leaves the document
    as it was and logs one line naming the two types; it does not
    throw. *)
Theorem merge_no_strategy
    (run_custom : string -> MergeArgs -> M MergeArgs) (args : MergeArgs) (tx : Tx)
    (cid d : string) (p : Path) (c : Container) (fa sa : Address) (f s : Node) :
  present (containerId args) = Some cid ->
  path args = Some p ->
  present (direction args) = Some d ->
  store tx !! cid = Some (ContainerEntry c) ->
  (d = "right" /\ getAddress tx c p = Some fa /\
   getNextAddress tx c (Some fa) = Some sa) \/
  (d = "left" /\ getAddress tx c p = Some sa /\
   getPreviousAddress tx c (Some sa) = Some fa) ->
  getChildAt tx c (head fa) = Some f ->
  getChildAt tx c (head sa) = Some s ->
  id f <> id s ->
  first_applicable (resolution_order (editingBehavior args) f s) = noStrategy ->
  merge run_custom args tx =
    mkResult tx [Info "No merge behavior defined for %s <- %s" [type f; type s]]
      (Normal args).
Proof.
  intros Hc Hp Hd Hstore Hdir Hf Hs Hne Hnone.
  rewrite (merge_neighbour run_custom args tx cid d p c fa sa Hc Hp Hd Hstore Hdir).
  set (args1 := extend_addresses args (Some cid) (Some fa) (Some sa)).
  assert (Hcomp : _mergeComponents run_custom args1 tx =
            mkResult tx [Info "No merge behavior defined for %s <- %s" [type f; type s]]
              (Normal args1)).
  { rewrite (mergeComponents_distinct run_custom args1 tx cid c fa sa f s
               eq_refl Hstore eq_refl eq_refl Hf Hs Hne).
    change (editingBehavior args1) with (editingBehavior args).
    rewrite (bind_normal _ _ _ _ _ _ (getNodeMerger_none _ _ _ tx Hnone)).
    reflexivity. }
  rewrite (bind_normal _ _ _ _ _ _ Hcomp).
  change (selection args1) with (selection args).
  rewrite set_selection_same. reflexivity.
Qed.

Lemma merge_no_strategy_witness :
  merge no_custom (merge_args ["t1"; "cell"] "left") figure_and_table =
    mkResult figure_and_table
      [Info "No merge behavior defined for %s <- %s" ["figure"; "table"]]
      (Normal (merge_args ["t1"; "cell"] "left")).
Proof.
  apply (merge_no_strategy no_custom (merge_args ["t1"; "cell"] "left")
           figure_and_table "body" "left" ["t1"; "cell"]
           (mkContainer "body" ["f1"; "t1"]) [0%nat; 0%nat] [1%nat; 0%nat]
           (mkNode "f1" "figure" false "" [["f1"; "caption"]])
           (mkNode "t1" "table" false "" [["t1"; "cell"]]));
    try reflexivity.
  - right. repeat split.
  - discriminate.
Defined.

(** X26: a merger registered for the exact pair of types takes the
    place of the built-in text merge, also between two text nodes. It
    is called with the caller's [args] in which [containerId], the two
    addresses, [first] and [second] are set. When it returns, [merge]
    returns the caller's [args] with the merger's selection and no
    other key changed, the document and the log being the merger's;
    when it throws, [merge] throws the same. When the behavior answers
    that it can merge and then has no merger, [merge] quietly returns
    its [args]. *)
Theorem merge_registered_merger
    (run_custom : string -> MergeArgs -> M MergeArgs) (args : MergeArgs) (tx : Tx)
    (cid d : string) (p : Path) (c : Container) (fa sa : Address) (f s : Node)
    (b : EditingBehavior) :
  present (containerId args) = Some cid ->
  path args = Some p ->
  present (direction args) = Some d ->
  editingBehavior args = Some b ->
  store tx !! cid = Some (ContainerEntry c) ->
  (d = "right" /\ getAddress tx c p = Some fa /\
   getNextAddress tx c (Some fa) = Some sa) \/
  (d = "left" /\ getAddress tx c p = Some sa /\
   getPreviousAddress tx c (Some sa) = Some fa) ->
  getChildAt tx c (head fa) = Some f ->
  getChildAt tx c (head sa) = Some s ->
  id f <> id s ->
  canMerge b (type f) (type s) = true ->
  let received :=
    mkMergeArgs (Some cid) (path args) (direction args) (editingBehavior args)
      (selection args) (Some fa) (Some sa) (Some f) (Some s) (node args) in
  (forall name, getMerger b (type f) (type s) = Some (custom name) ->
     (forall tx' l tmp,
        run_custom name received tx = mkResult tx' l (Normal tmp) ->
        exists a,
          merge run_custom args tx = mkResult tx' l (Normal a) /\
          selection a = selection tmp /\ same_keys a args) /\
     (forall tx' l e,
        run_custom name received tx = mkResult tx' l (Throw e) ->
        merge run_custom args tx = mkResult tx' l (Throw e))) /\
  (getMerger b (type f) (type s) = None ->
   merge run_custom args tx = mkResult tx [] (Normal args)).
Proof.
  intros Hc Hp Hd Hb Hstore Hdir Hf Hs Hne Hcan received.
  rewrite (merge_neighbour run_custom args tx cid d p c fa sa Hc Hp Hd Hstore Hdir).
  set (args1 := extend_addresses args (Some cid) (Some fa) (Some sa)).
  assert (Hcomp : _mergeComponents run_custom args1 tx =
            match getMerger b (type f) (type s) with
            | Some mergeTrafo => call run_custom mergeTrafo received tx
            | None => ret args1 tx
            end).
  { rewrite (mergeComponents_distinct run_custom args1 tx cid c fa sa f s
               eq_refl Hstore eq_refl eq_refl Hf Hs Hne).
    change (editingBehavior args1) with (editingBehavior args). rewrite Hb.
    eapply bind_silent; [unfold _getNodeMerger; rewrite Hcan; reflexivity|].
    destruct (getMerger b (type f) (type s)); reflexivity. }
  split.
  - intros name Hname. rewrite Hname in Hcomp. cbn [call] in Hcomp. split.
    + intros tx' l tmp Hrun. rewrite Hrun in Hcomp.
      rewrite (bind_normal _ _ _ _ _ _ Hcomp). unfold ret. cbn [final logged outcome].
      rewrite app_nil_r.
      eexists. split; [reflexivity|]. split; [reflexivity | repeat split].
    + intros tx' l e Hrun. rewrite Hrun in Hcomp.
      apply bind_throw. exact Hcomp.
  - intros Hnone. rewrite Hnone in Hcomp.
    eapply bind_silent; [exact Hcomp|].
    change (selection args1) with (selection args).
    rewrite set_selection_same. reflexivity.
Qed.

Lemma merge_registered_merger_witness :
  exists a,
    merge null_selection_merger (with_behaviour (merge_args p1 "right"))
      (two_paragraphs "foo" "bar") =
      mkResult (two_paragraphs "foo" "bar") [] (Normal a) /\
    selection a = Some nullSelection /\
    same_keys a (with_behaviour (merge_args p1 "right")).
Proof.
  destruct (merge_registered_merger null_selection_merger
              (with_behaviour (merge_args p1 "right"))
              (two_paragraphs "foo" "bar") "body" "right" p1 body
              [0%nat; 0%nat] [1%nat; 0%nat] (paragraph "p1" "foo") (paragraph "p2" "bar")
              paragraph_behaviour
              eq_refl eq_refl eq_refl eq_refl eq_refl
              (or_introl (conj eq_refl (conj eq_refl eq_refl)))
              eq_refl eq_refl ltac:(discriminate) eq_refl) as [H _].
  destruct (H "keep" eq_refl) as [Hret _].
  exact (Hret (two_paragraphs "foo" "bar") [] _ eq_refl).
Defined.

End MergeRuns.
